(** * snake-nokia: the game core of [src/App.tsx]

    A shallow embedding of the React component's game logic: the pure
    helpers ([same], [isOpposite], [dirVec], [wrap]), the component state
    (one record field per [useState] cell), the commands that event
    handlers run ([restart], [startGame], [togglePause], [die], the
    keyboard and swipe handlers) and the body of the interval callback
    ([tick]).

    Numbers are JavaScript numbers holding integers; they are modelled as
    [Z].  [Math.floor (a / b)] on integers is [Z.div], which rounds towards
    minus infinity for either sign of [b].

    [Math.random] is modelled by an explicit supply of samples: a list of
    the cells that successive iterations of the loop in [spawnFood] draw. *)

From Stdlib Require Import ZArith Bool String List Lia.
Import ListNotations.
Local Open Scope Z_scope.

(** ** Data model *)

(** [type Cell = { x: number; y: number }] *)
Record Cell : Type := mkCell { x : Z; y : Z }.

(** [type Dir = "up" | "down" | "left" | "right"] *)
Inductive Dir : Type := Up | Down | Left | Right.

Definition GRID : Z := 18.

(** ** Pure helpers *)

Definition same (a b : Cell) : bool :=
  (x a =? x b) && (y a =? y b).

Definition isOpposite (a b : Dir) : bool :=
  match a, b with
  | Up, Down => true
  | Down, Up => true
  | Left, Right => true
  | Right, Left => true
  | _, _ => false
  end.

Definition dirVec (d : Dir) : Cell :=
  match d with
  | Up => mkCell 0 (-1)
  | Down => mkCell 0 1
  | Left => mkCell (-1) 0
  | Right => mkCell 1 0
  end.

Definition wrap (n : Z) : Z :=
  if n <? 0 then GRID - 1
  else if n >=? GRID then 0
  else n.

(** [s.some((c) => same(c, f))] *)
Definition some_same (s : list Cell) (f : Cell) : bool :=
  existsb (fun c => same c f) s.

(** ** Speed curve ([useMemo] values derived from the score) *)

Definition speed (score : Z) : Z :=
  let base := 9 in
  let bonus := score / 5 * 2 in
  base + bonus.

Definition tickMs (speed : Z) : Z := Z.max 55 (1000 / speed).

(** ** Results of calls that may fail to return *)

Inductive result (A : Type) : Type :=
| Ret (a : A)      (* the call returned [a] *)
| Throw            (* a TypeError was raised (property read on [undefined]) *)
| Spin.            (* the [while (true)] loop used up every sample supplied *)
Arguments Ret {A} a.
Arguments Throw {A}.
Arguments Spin {A}.

(** The supply of random samples: element [k] is the cell
    [{x: floor(random * GRID), y: floor(random * GRID)}] built by the
    [k]-th iteration of the loop in [spawnFood]. *)
Definition Samples : Type := list Cell.

(** [spawnFood]: draw until a sample is off the snake.  [None] when the
    loop has rejected every sample of the supply. *)
Fixpoint spawnFood (s : list Cell) (rng : Samples) : option (Cell * Samples) :=
  match rng with
  | [] => None
  | f :: rest =>
      if negb (some_same s f) then Some (f, rest) else spawnFood s rest
  end.

(** ** Component state *)

Record State : Type := mkState {
  snake : list Cell;
  dir : Dir;
  nextDir : Dir;
  food : Cell;
  score : Z;
  best : Z;
  running : bool;
  paused : bool;
  dead : bool;
  startPt : option (Z * Z)   (* the swipe effect's local [startPt] *)
}.

Definition setSnake (v : list Cell) (s : State) : State :=
  mkState v (dir s) (nextDir s) (food s) (score s) (best s)
          (running s) (paused s) (dead s) (startPt s).
Definition setDir (v : Dir) (s : State) : State :=
  mkState (snake s) v (nextDir s) (food s) (score s) (best s)
          (running s) (paused s) (dead s) (startPt s).
Definition setNextDir (v : Dir) (s : State) : State :=
  mkState (snake s) (dir s) v (food s) (score s) (best s)
          (running s) (paused s) (dead s) (startPt s).
Definition setFood (v : Cell) (s : State) : State :=
  mkState (snake s) (dir s) (nextDir s) v (score s) (best s)
          (running s) (paused s) (dead s) (startPt s).
Definition setScore (v : Z) (s : State) : State :=
  mkState (snake s) (dir s) (nextDir s) (food s) v (best s)
          (running s) (paused s) (dead s) (startPt s).
Definition setBest (v : Z) (s : State) : State :=
  mkState (snake s) (dir s) (nextDir s) (food s) (score s) v
          (running s) (paused s) (dead s) (startPt s).
Definition setRunning (v : bool) (s : State) : State :=
  mkState (snake s) (dir s) (nextDir s) (food s) (score s) (best s)
          v (paused s) (dead s) (startPt s).
Definition setPaused (v : bool) (s : State) : State :=
  mkState (snake s) (dir s) (nextDir s) (food s) (score s) (best s)
          (running s) v (dead s) (startPt s).
Definition setDead (v : bool) (s : State) : State :=
  mkState (snake s) (dir s) (nextDir s) (food s) (score s) (best s)
          (running s) (paused s) v (startPt s).
Definition setStartPt (v : option (Z * Z)) (s : State) : State :=
  mkState (snake s) (dir s) (nextDir s) (food s) (score s) (best s)
          (running s) (paused s) (dead s) v.

Definition startSnake : list Cell :=
  [mkCell 9 9; mkCell 8 9; mkCell 7 9].

(** The state of the first render; [b] is the value read from
    [localStorage] for the best score. *)
Definition init (b : Z) : State :=
  mkState startSnake Right Right (mkCell 4 6) 0 b false false false None.

(** ** Commands *)

Definition restart (s : State) (rng : Samples) : result (State * Samples) :=
  match spawnFood startSnake rng with
  | None => Spin
  | Some (f, rng') =>
      Ret (setRunning false
            (setPaused false
              (setDead false
                (setScore 0
                  (setFood f
                    (setNextDir Right
                      (setDir Right
                        (setSnake startSnake s))))))),
           rng')
  end.

Definition startGame (s : State) : State :=
  setRunning true (setPaused false (setDead false s)).

Definition togglePause (s : State) : State :=
  if negb (running s) || dead s then s
  else setPaused (negb (paused s)) s.

Definition die (finalScore : Z) (s : State) : State :=
  let s1 := setPaused false (setRunning false (setDead true s)) in
  if finalScore >? best s then setBest finalScore s1 else s1.

(** The updater passed to [setNextDir] by every direction request:
    [(d) => (isOpposite(d, nd) ? d : nd)], where [d] is the value the
    [nextDir] cell holds. *)
Definition turn (nd : Dir) (d : Dir) : Dir :=
  if isOpposite d nd then d else nd.

Definition requestDir (nd : Dir) (s : State) : State :=
  setNextDir (turn nd (nextDir s)) s.

(** [e.key.toLowerCase() === c] for a one-letter lower-case [c] with
    upper-case form [C]. *)
Definition lower_is (key c C : string) : bool :=
  (key =? c)%string || (key =? C)%string.

(** [onKey]: the seven [if] statements in order. *)
Definition onKey (key : string) (s : State) (rng : Samples)
  : result (State * Samples) :=
  let s := if (key =? "ArrowUp")%string then requestDir Up s else s in
  let s := if (key =? "ArrowDown")%string then requestDir Down s else s in
  let s := if (key =? "ArrowLeft")%string then requestDir Left s else s in
  let s := if (key =? "ArrowRight")%string then requestDir Right s else s in
  let s := if (key =? " ")%string then togglePause s else s in
  match (if lower_is key "r" "R" then restart s rng else Ret (s, rng)) with
  | Ret (s, rng) =>
      Ret (if lower_is key "s" "S" then startGame s else s, rng)
  | Throw => Throw
  | Spin => Spin
  end.

Definition onTouchStart (cx cy : Z) (s : State) : State :=
  setStartPt (Some (cx, cy)) s.

Definition onTouchEnd (cx cy : Z) (s : State) : State :=
  match startPt s with
  | None => s
  | Some (sx, sy) =>
      let dx := cx - sx in
      let dy := cy - sy in
      let s := setStartPt None s in
      let ax := Z.abs dx in
      let ay := Z.abs dy in
      if Z.max ax ay <? 14 then s
      else if ax >? ay then
        requestDir (if dx >? 0 then Right else Left) s
      else
        requestDir (if dy >? 0 then Down else Up) s
  end.

(** ** The tick: body of the interval callback *)

(** [{ x: wrap(head.x + v.x), y: wrap(head.y + v.y) }] with
    [v = dirVec(d)]. *)
Definition nextCell (d : Dir) (head : Cell) : Cell :=
  let v := dirVec d in
  mkCell (wrap (x head + x v)) (wrap (y head + y v)).

(** The updater given to [setSnake], with the state changes it requests
    ([setDir], [die], [setScore], [setFood]) applied to the same state.
    [prev[0]] of an empty array is [undefined], whose [.x] throws. *)
Definition tick (s : State) (rng : Samples) : result (State * Samples) :=
  let prev := snake s in
  let d := nextDir s in
  let s := setDir d s in
  match prev with
  | [] => Throw
  | head :: _ =>
      let next := nextCell d head in
      if some_same prev next then
        Ret (setSnake prev (die (score s) s), rng)
      else
        let ate := same next (food s) in
        let newSnake := next :: prev in
        if ate then
          match spawnFood newSnake rng with
          | None => Spin
          | Some (f, rng') =>
              Ret (setSnake newSnake
                    (setFood f (setScore (score s + 1) s)), rng')
          end
        else
          Ret (setSnake (removelast newSnake) s, rng)
  end.

(** ** The event loop *)

Inductive Cmd : Type :=
| Key (key : string)
| TouchStart (cx cy : Z)
| TouchEnd (cx cy : Z)
| ClickStart
| ClickPause
| ClickRestart
| Tick.

(** One event of the page.  The interval exists only while
    [running && !paused && !dead], so a tick outside that phase is no
    event at all; the start button is disabled while [running && !dead]
    and the pause button while [!running || dead], and a disabled button
    delivers no click. *)
Definition step (c : Cmd) (s : State) (rng : Samples)
  : result (State * Samples) :=
  match c with
  | Key key => onKey key s rng
  | TouchStart cx cy => Ret (onTouchStart cx cy s, rng)
  | TouchEnd cx cy => Ret (onTouchEnd cx cy s, rng)
  | ClickStart =>
      Ret (if running s && negb (dead s) then s else startGame s, rng)
  | ClickPause =>
      Ret (if negb (running s) || dead s then s else togglePause s, rng)
  | ClickRestart => restart s rng
  | Tick =>
      if negb (running s) || paused s || dead s then Ret (s, rng)
      else tick s rng
  end.

(** States reachable from a first render by any sequence of commands, each
    with whatever samples the random source yields during it. *)
Inductive reachable : State -> Prop :=
| reach_init (b : Z) : reachable (init b)
| reach_step (c : Cmd) (s s' : State) (rng rng' : Samples) :
    reachable s -> step c s rng = Ret (s', rng') -> reachable s'.

(** A run of commands threading one sample supply. *)
Fixpoint run (cs : list Cmd) (s : State) (rng : Samples)
  : result (State * Samples) :=
  match cs with
  | [] => Ret (s, rng)
  | c :: cs' =>
      match step c s rng with
      | Ret (s', rng') => run cs' s' rng'
      | Throw => Throw
      | Spin => Spin
      end
  end.

(** Any sequence of transitions, each with its own samples. *)
Inductive steps : State -> State -> Prop :=
| steps_refl (s : State) : steps s s
| steps_cons (c : Cmd) (s s' s'' : State) (rng rng' : Samples) :
    step c s rng = Ret (s', rng') -> steps s' s'' -> steps s s''.

(** ** Predicates used by the statements *)

Definition inGrid (c : Cell) : Prop :=
  0 <= x c < GRID /\ 0 <= y c < GRID.

(** The tick period as a function of the score. *)
Definition period (score : Z) : Z := tickMs (speed score).

(** The snake has a head and lies on the grid. *)
Definition snakeOk (s : State) : Prop :=
  snake s <> [] /\ Forall inGrid (snake s).

(** [dead] excludes [running] and [paused]. *)
Definition flagsOk (s : State) : Prop :=
  dead s = true -> running s = false /\ paused s = false.

(** The food is on no snake cell. *)
Definition foodOff (s : State) : Prop :=
  some_same (snake s) (food s) = false.

(** A transition is a death when it is a tick of a live game whose
    candidate head lies on the body. *)
Definition dies (c : Cmd) (s : State) : bool :=
  match c, snake s with
  | Tick, head :: _ =>
      negb (negb (running s) || paused s || dead s)
      && some_same (snake s) (nextCell (nextDir s) head)
  | _, _ => false
  end.


(** The direction a swipe of displacement [(dx, dy)] asks for, when it is
    long enough. *)
Definition swipeDir (dx dy : Z) : option Dir :=
  if Z.max (Z.abs dx) (Z.abs dy) <? 14 then None
  else if Z.abs dx >? Z.abs dy then Some (if dx >? 0 then Right else Left)
  else Some (if dy >? 0 then Down else Up).

(** ** Concrete states of the scenarios *)

(** A snake that has just crossed the right edge, about to move left. *)
Definition wrapped : State :=
  mkState [mkCell 0 9; mkCell 17 9; mkCell 16 9] Left Left (mkCell 4 6)
          0 0 true false false None.

(** A running game moving right in which "ArrowUp" was pressed since the
    last tick. *)
Definition turningUp : State :=
  mkState startSnake Right Up (mkCell 4 6) 0 0 true false false None.

(** A running game whose next cell to the right holds the food. *)
Definition aboutToEat : State :=
  mkState startSnake Right Right (mkCell 10 9) 0 0 true false false None.

(** A running game about to hit itself with a score above the best. *)
Definition wrappedAhead : State :=
  mkState [mkCell 0 9; mkCell 17 9; mkCell 16 9] Left Left (mkCell 4 6)
          7 3 true false false None.

(** ** The timer of the game loop *)

(** The browser's interval table as far as the component uses it: the
    handles of the intervals that are scheduled, each with its period, and
    the handle the next [setInterval] returns (handles are positive and
    never reused); [loopRef] is [loopRef.current], [None] for [null]. *)
Record Timers : Type := mkTimers {
  loopRef : option Z;
  scheduled : list (Z * Z);
  fresh : Z
}.

Definition clearInterval (id : Z) (t : Timers) : Timers :=
  mkTimers (loopRef t)
           (filter (fun e => negb (fst e =? id)) (scheduled t))
           (fresh t).

(** [window.setInterval(callback, ms)]: the handle and the new table. *)
Definition setInterval (ms : Z) (t : Timers) : Z * Timers :=
  (fresh t, mkTimers (loopRef t) ((fresh t, ms) :: scheduled t) (fresh t + 1)).

(** [stopLoop]: the test [if (loopRef.current)] fails on [null] and on the
    number [0]. *)
Definition stopLoop (t : Timers) : Timers :=
  match loopRef t with
  | None => t
  | Some id =>
      if id =? 0 then t
      else
        let t := clearInterval id t in
        mkTimers None (scheduled t) (fresh t)
  end.

(** The body of the game-loop effect for a render showing state [s]. *)
Definition gameLoop (s : State) (t : Timers) : Timers :=
  if negb (running s) || paused s || dead s then stopLoop t
  else
    let t := stopLoop t in
    let '(id, t) := setInterval (tickMs (speed (score s))) t in
    mkTimers (Some id) (scheduled t) (fresh t).

(** ** The overlays of the draw effect *)

(** The calls [overlay(ctx, title, subtitle)] the draw effect makes, in
    order. *)
Definition overlays (s : State) : list (string * string) :=
  (if negb (running s) && negb (dead s)
   then [("snake"%string, "press start"%string)] else [])
  ++ (if paused s && running s && negb (dead s)
      then [("paused"%string, "space to resume"%string)] else [])
  ++ (if dead s then [("game over"%string, "press restart"%string)] else []).

(** ** Further predicates *)

(** The cells of the grid, column by column. *)
Definition axis : list Z := map Z.of_nat (seq 0 18).

Definition allCells : list Cell :=
  flat_map (fun i => map (fun j => mkCell i j) axis) axis.

(** Each cell of a body is one wrapped step away from the cell behind it. *)
Fixpoint linked (l : list Cell) : Prop :=
  match l with
  | a :: (b :: _) as rest => (exists d, a = nextCell d b) /\ linked rest
  | _ => True
  end.

(** The snake has three cells more than the score. *)
Definition lengthOk (s : State) : Prop :=
  Z.of_nat (length (snake s)) = 3 + score s.

(** A game over is shown with a best score no lower than the score. *)
Definition bestOk (s : State) : Prop :=
  dead s = true -> score s <= best s.

(** The interval table holds what [loopRef] names and nothing else. *)
Definition timersOk (t : Timers) : Prop :=
  0 < fresh t /\
  match loopRef t with
  | None => scheduled t = []
  | Some id => 0 < id < fresh t /\ exists ms, scheduled t = [(id, ms)]
  end.

(** The game is ticking. *)
Definition ticking (s : State) : bool :=
  running s && negb (paused s) && negb (dead s).

(** The keys [onKey] reacts to. *)
Definition handledKey (key : string) : bool :=
  (key =? "ArrowUp")%string || (key =? "ArrowDown")%string
  || (key =? "ArrowLeft")%string || (key =? "ArrowRight")%string
  || (key =? " ")%string || lower_is key "r" "R" || lower_is key "s" "S".

(** A body on every cell of the grid but (0,0), its head at (0,1), about to
    move up onto the food at (0,0). *)
Definition lastBite : State :=
  mkState (tl allCells) Up Up (mkCell 0 0) 320 0 true false false None.

(** ** A game that fills the grid *)





(** * Properties *)

(** ** Cells and membership *)

Lemma same_eq (a b : Cell) : same a b = true <-> a = b.
Proof.
  destruct a as [ax ay], b as [bx by']; unfold same; simpl.
  rewrite andb_true_iff, !Z.eqb_eq.
  split; [intros [-> ->]; reflexivity | intros H; inversion H; auto].
Qed.

Lemma same_neq (a b : Cell) : same a b = false <-> a <> b.
Proof.
  rewrite <- same_eq. destruct (same a b); split; congruence.
Qed.

Lemma same_sym (a b : Cell) : same a b = same b a.
Proof. unfold same. rewrite (Z.eqb_sym (x a)), (Z.eqb_sym (y a)). reflexivity. Qed.

Lemma some_same_In (s : list Cell) (f : Cell) :
  some_same s f = true <-> In f s.
Proof.
  unfold some_same. rewrite existsb_exists. split.
  - intros (c & Hin & Hc). apply same_eq in Hc. subst. exact Hin.
  - intros Hin. exists f. split; [exact Hin | apply same_eq; reflexivity].
Qed.

Lemma some_same_notIn (s : list Cell) (f : Cell) :
  some_same s f = false <-> ~ In f s.
Proof.
  rewrite <- some_same_In. destruct (some_same s f); split; congruence.
Qed.

Lemma In_removelast_In {A : Type} (a : A) (l : list A) :
  In a (removelast l) -> In a l.
Proof.
  induction l as [|b l IH]; simpl; [tauto|].
  destruct l as [|c l]; simpl in *; [tauto|].
  intros [H|H]; [left; exact H | right; apply IH; exact H].
Qed.

Lemma length_removelast_cons {A : Type} (a : A) (l : list A) :
  length (removelast (a :: l)) = length l.
Proof.
  revert a. induction l as [|b l IH]; intros a; [reflexivity|].
  change (removelast (a :: b :: l)) with (a :: removelast (b :: l)).
  cbn [length]. f_equal. apply IH.
Qed.

(** ** The food sampler *)

Lemma spawnFood_off (s : list Cell) (rng : Samples) (f : Cell) (rng' : Samples) :
  spawnFood s rng = Some (f, rng') -> some_same s f = false.
Proof.
  induction rng as [|g rest IH]; simpl; [discriminate|].
  destruct (some_same s g) eqn:Hg; simpl.
  - exact IH.
  - intros H. inversion H; subst. exact Hg.
Qed.

Lemma spawnFood_drawn (s : list Cell) (rng : Samples) (f : Cell) (rng' : Samples) :
  spawnFood s rng = Some (f, rng') ->
  exists rejected, rng = rejected ++ f :: rng' /\
                   Forall (fun g => some_same s g = true) rejected.
Proof.
  revert f rng'. induction rng as [|g rest IH]; simpl; intros f rng'; [discriminate|].
  destruct (some_same s g) eqn:Hg; simpl.
  - intros H. destruct (IH _ _ H) as (rej & -> & Hrej).
    exists (g :: rej). split; [reflexivity | constructor; assumption].
  - intros H. inversion H; subst. exists []. split; [reflexivity | constructor].
Qed.

Lemma spawnFood_returns (s : list Cell) (rng : Samples) :
  Exists (fun g => some_same s g = false) rng ->
  exists f rng', spawnFood s rng = Some (f, rng').
Proof.
  induction 1 as [g rest Hg | g rest _ IH]; simpl.
  - rewrite Hg. simpl. eauto.
  - destruct (some_same s g); simpl; eauto.
Qed.

(** ** Grid geometry *)

Lemma wrap_range (n : Z) : 0 <= wrap n < GRID.
Proof.
  unfold wrap, GRID.
  destruct (n <? 0) eqn:H1; [lia|].
  destruct (n >=? 18) eqn:H2; lia.
Qed.

Lemma wrap_fix (n : Z) : 0 <= n < GRID -> wrap n = n.
Proof.
  unfold wrap, GRID. intros H.
  destruct (n <? 0) eqn:H1; [lia|].
  destruct (n >=? 18) eqn:H2; lia.
Qed.

Lemma nextCell_inGrid (d : Dir) (c : Cell) : inGrid (nextCell d c).
Proof. split; simpl; apply wrap_range. Qed.

(** C4: [wrap] returns [GRID - 1] below zero, [0] from [GRID] upwards and
    its argument otherwise; for every integer it is idempotent and lands in
    [0, GRID). *)
Theorem wrap_spec (n : Z) :
  (n < 0 -> wrap n = GRID - 1) /\
  (n >= GRID -> wrap n = 0) /\
  (0 <= n < GRID -> wrap n = n) /\
  wrap (wrap n) = wrap n /\
  0 <= wrap n < GRID.
Proof.
  repeat split; try apply wrap_range.
  - intros H. unfold wrap. destruct (n <? 0) eqn:E; [reflexivity | lia].
  - intros H. unfold wrap, GRID in *.
    destruct (n <? 0) eqn:E; [lia|].
    destruct (n >=? 18) eqn:E'; [reflexivity | lia].
  - apply wrap_fix.
  - apply wrap_fix, wrap_range.
Qed.

(** [wrap] at -1, 18, 5, -7 and 40. *)
Lemma wrap_spec_sample :
  wrap (-1) = GRID - 1 /\ wrap 18 = 0 /\ wrap 5 = 5 /\
  wrap (wrap (-7)) = wrap (-7) /\ 0 <= wrap 40 < GRID.
Proof.
  split; [apply (proj1 (wrap_spec (-1))); lia|].
  split; [apply (proj1 (proj2 (wrap_spec 18))); unfold GRID; lia|].
  split; [apply (proj1 (proj2 (proj2 (wrap_spec 5)))); unfold GRID; lia|].
  split; [apply (proj1 (proj2 (proj2 (proj2 (wrap_spec (-7)))))) |].
  apply (proj2 (proj2 (proj2 (proj2 (wrap_spec 40))))).
Defined.

(** ** Speed curve *)

Lemma speed_block (a b : Z) : a / 5 = b / 5 -> speed a = speed b.
Proof. unfold speed. intros ->. reflexivity. Qed.

Lemma period_floor (sc : Z) : 25 <= sc -> period sc = 55.
Proof.
  intros H. unfold period, tickMs, speed.
  assert (Hq : 5 <= sc / 5) by (apply Z.div_le_lower_bound; lia).
  assert (Hd : 1000 / (9 + sc / 5 * 2) <= 1000 / 19)
    by (apply Z.div_le_compat_l; lia).
  change (1000 / 19) with 52 in Hd. lia.
Qed.

(** C8, as stated, fails: the score crossing 30, a multiple of 5, leaves
    the period where it was, at the 55 ms floor. *)
Lemma period_unchanged_across_30 :
  (29 + 1) mod 5 = 0 /\ 29 / 5 <> (29 + 1) / 5 /\
  period 29 = 55 /\ period (29 + 1) = 55.
Proof. repeat split; vm_compute; congruence. Qed.

(** C8, amended: the period is [max 55 (floor (1000 / speed))] with
    [speed = 9 + floor (score / 5) * 2]; it changes only when the score
    crosses a multiple of 5, it does shorten at every such crossing up to
    score 25, and from score 25 on it stays at 55. *)
Theorem period_law (sc : Z) :
  period sc = Z.max 55 (1000 / (9 + sc / 5 * 2)) /\
  ((sc + 1) mod 5 <> 0 -> period (sc + 1) = period sc) /\
  (0 <= sc < 25 -> (sc + 1) mod 5 = 0 -> period (sc + 1) < period sc) /\
  (25 <= sc -> period sc = 55).
Proof.
  split; [reflexivity|]. split; [|split].
  - intros H. unfold period. f_equal. apply speed_block.
    pose proof (Z.div_mod (sc + 1) 5 ltac:(lia)) as E1.
    pose proof (Z.mod_pos_bound (sc + 1) 5 ltac:(lia)) as B1.
    pose proof (Z.div_mod sc 5 ltac:(lia)) as E2.
    pose proof (Z.mod_pos_bound sc 5 ltac:(lia)) as B2.
    lia.
  - intros Hr Hm.
    assert (Hcases : sc = 4 \/ sc = 9 \/ sc = 14 \/ sc = 19 \/ sc = 24).
    { pose proof (Z.div_mod (sc + 1) 5 ltac:(lia)) as E1. lia. }
    destruct Hcases as [-> | [-> | [-> | [-> | ->]]]]; vm_compute; reflexivity.
  - apply period_floor.
Qed.

(** The period around the boundary at 25, inside a block, and at 40. *)
Lemma period_law_sample :
  period 24 = 58 /\ period (24 + 1) < period 24 /\
  period (7 + 1) = period 7 /\ period 40 = 55.
Proof.
  split; [reflexivity|].
  split; [apply (proj1 (proj2 (proj2 (period_law 24)))); [lia | reflexivity]|].
  split; [apply (proj1 (proj2 (period_law 7))); vm_compute; discriminate|].
  apply (proj2 (proj2 (proj2 (period_law 40)))). lia.
Defined.

(** ** A step never stays in place *)

Lemma nextCell_moves (d : Dir) (c : Cell) : inGrid c -> nextCell d c <> c.
Proof.
  destruct c as [cx cy]. unfold inGrid, nextCell, wrap, GRID. simpl.
  intros [Hx Hy] E.
  destruct d; simpl in E; injection E as Ex Ey;
    repeat match goal with
           | H : context [if ?b then _ else _] |- _ => destruct b eqn:?
           end; lia.
Qed.

(** C10: on the 18x18 grid the wrapped step from a cell never lands on that
    cell, so the scan never matches the pre-move head and a snake of one
    cell does not die on a tick. *)
Theorem step_leaves_cell (c : Cell) (d : Dir) (Hc : inGrid c) :
  nextCell d c <> c /\
  (forall tl, some_same (c :: tl) (nextCell d c) = some_same tl (nextCell d c)) /\
  (forall s rng, snake s = [c] -> nextDir s = d ->
     dies Tick s = false /\
     tick s rng <> Throw /\
     (same (nextCell d c) (food s) = false ->
        tick s rng = Ret (setSnake [nextCell d c] (setDir d s), rng)) /\
     (forall s' rng', tick s rng = Ret (s', rng') ->
        dead s' = dead s /\ running s' = running s)).
Proof.
  pose proof (nextCell_moves d c Hc) as Hmove.
  assert (Hsame : same c (nextCell d c) = false)
    by (apply same_neq; congruence).
  split; [exact Hmove|]. split.
  - intros tl. unfold some_same. simpl. rewrite Hsame. reflexivity.
  - intros s rng Hs Hd.
    assert (Hscan : some_same [c] (nextCell d c) = false)
      by (unfold some_same; simpl; rewrite Hsame; reflexivity).
    clear Hsame. repeat split.
    + unfold dies. rewrite Hs, Hd, Hscan. apply andb_false_r.
    + unfold tick. rewrite Hs, Hd. cbn zeta. rewrite Hscan.
      destruct (same _ _); [destruct (spawnFood _ _) as [[f r]|]|]; discriminate.
    + intros Hfood. unfold tick. rewrite Hs, Hd. cbn zeta. rewrite Hscan.
      cbn [food setDir]. rewrite Hfood. reflexivity.
    + unfold tick in H. rewrite Hs, Hd in H. cbn zeta in H. rewrite Hscan in H.
      destruct (same _ _); [destruct (spawnFood _ _) as [[f r]|]|];
        inversion H; subst; reflexivity.
    + unfold tick in H. rewrite Hs, Hd in H. cbn zeta in H. rewrite Hscan in H.
      destruct (same _ _); [destruct (spawnFood _ _) as [[f r]|]|];
        inversion H; subst; reflexivity.
Qed.

(** Going up from the corner (0,0) lands on (0,17). *)
Lemma step_leaves_cell_corner :
  nextCell Up (mkCell 0 0) = mkCell 0 17 /\ nextCell Up (mkCell 0 0) <> mkCell 0 0.
Proof.
  split; [reflexivity|].
  apply (step_leaves_cell (mkCell 0 0) Up). unfold inGrid, GRID. simpl. lia.
Defined.

(** ** The tick, case by case *)

Lemma tick_death (s : State) (head : Cell) (tl : list Cell) (rng : Samples) :
  snake s = head :: tl ->
  some_same (snake s) (nextCell (nextDir s) head) = true ->
  tick s rng = Ret (setSnake (snake s) (die (score s) (setDir (nextDir s) s)), rng).
Proof.
  intros Hs Hhit. unfold tick. rewrite Hs in *. cbn zeta. rewrite Hhit. reflexivity.
Qed.

Lemma tick_move (s : State) (head : Cell) (tl : list Cell) (rng : Samples) :
  snake s = head :: tl ->
  some_same (snake s) (nextCell (nextDir s) head) = false ->
  same (nextCell (nextDir s) head) (food s) = false ->
  tick s rng =
    Ret (setSnake (removelast (nextCell (nextDir s) head :: snake s))
                  (setDir (nextDir s) s), rng).
Proof.
  intros Hs Hfree Hfood. unfold tick. rewrite Hs in *. cbn zeta.
  rewrite Hfree. cbn [food setDir]. rewrite Hfood. reflexivity.
Qed.

Lemma tick_eat (s : State) (head : Cell) (tl : list Cell) (rng : Samples) :
  snake s = head :: tl ->
  some_same (snake s) (nextCell (nextDir s) head) = false ->
  same (nextCell (nextDir s) head) (food s) = true ->
  tick s rng =
    match spawnFood (nextCell (nextDir s) head :: snake s) rng with
    | None => Spin
    | Some (f, rng') =>
        Ret (setSnake (nextCell (nextDir s) head :: snake s)
              (setFood f (setScore (score s + 1) (setDir (nextDir s) s))), rng')
    end.
Proof.
  intros Hs Hfree Hfood. unfold tick. rewrite Hs in *. cbn zeta.
  rewrite Hfree. cbn [food setDir]. rewrite Hfood. reflexivity.
Qed.

Lemma die_best (fs : Z) (s : State) : best (die fs s) = Z.max (best s) fs.
Proof.
  unfold die. destruct (fs >? best s) eqn:E; simpl; lia.
Qed.

Lemma die_flags (fs : Z) (s : State) :
  dead (die fs s) = true /\ running (die fs s) = false /\ paused (die fs s) = false.
Proof. unfold die. destruct (fs >? best s); simpl; auto. Qed.

Lemma die_rest (fs : Z) (s : State) :
  snake (die fs s) = snake s /\ food (die fs s) = food s /\
  score (die fs s) = score s /\ dir (die fs s) = dir s /\
  nextDir (die fs s) = nextDir s.
Proof. unfold die. destruct (fs >? best s); simpl; auto. Qed.

(** C2: when the candidate head lies on the pre-move body, the tick ends in
    Dead with the snake as it was and [running] false; so it is for the
    snake [(0,9),(17,9),(16,9)] turning left, whose head wraps to (17,9). *)
Theorem death_law :
  (forall s head tl rng,
     snake s = head :: tl ->
     some_same (snake s) (nextCell (nextDir s) head) = true ->
     exists s',
       tick s rng = Ret (s', rng) /\
       dead s' = true /\ snake s' = snake s /\ running s' = false /\
       paused s' = false /\ score s' = score s /\ food s' = food s /\
       best s' = Z.max (best s) (score s) /\ dir s' = nextDir s) /\
  (forall s rng,
     snake s = [mkCell 0 9; mkCell 17 9; mkCell 16 9] -> nextDir s = Left ->
     nextCell Left (mkCell 0 9) = mkCell 17 9 /\
     exists s',
       tick s rng = Ret (s', rng) /\
       dead s' = true /\ running s' = false /\
       snake s' = [mkCell 0 9; mkCell 17 9; mkCell 16 9]).
Proof.
  assert (General : forall s head tl rng,
     snake s = head :: tl ->
     some_same (snake s) (nextCell (nextDir s) head) = true ->
     exists s',
       tick s rng = Ret (s', rng) /\
       dead s' = true /\ snake s' = snake s /\ running s' = false /\
       paused s' = false /\ score s' = score s /\ food s' = food s /\
       best s' = Z.max (best s) (score s) /\ dir s' = nextDir s).
  { intros s head tl rng Hs Hhit.
    eexists. split; [apply (tick_death s head tl rng Hs Hhit)|].
    destruct (die_flags (score s) (setDir (nextDir s) s)) as (Hd & Hr & Hp).
    destruct (die_rest (score s) (setDir (nextDir s) s)) as (_ & Hf & Hsc & Hdir & _).
    cbn [dead snake running paused score food best dir setSnake].
    rewrite Hd, Hr, Hp, Hf, Hsc, Hdir, die_best. repeat split. }
  split; [exact General|].
  intros s rng Hs Hd. split; [reflexivity|].
  destruct (General s (mkCell 0 9) [mkCell 17 9; mkCell 16 9] rng Hs)
    as (s' & Ht & Hdead & Hsn & Hrun & _).
  - rewrite Hs, Hd. reflexivity.
  - exists s'. rewrite <- Hs, <- Hsn. auto.
Qed.

(** The snake that has just crossed the right edge dies turning left. *)
Lemma death_law_wrapped :
  exists s',
    tick wrapped [] = Ret (s', []) /\
    dead s' = true /\ snake s' = snake wrapped /\ running s' = false /\
    paused s' = false /\ score s' = score wrapped /\ food s' = food wrapped /\
    best s' = Z.max (best wrapped) (score wrapped) /\ dir s' = nextDir wrapped.
Proof.
  apply (proj1 death_law wrapped (mkCell 0 9) [mkCell 17 9; mkCell 16 9] []);
    reflexivity.
Defined.

(** ** Restart *)

Lemma restart_fields (s : State) (rng : Samples) (s' : State) (rng' : Samples) :
  restart s rng = Ret (s', rng') ->
  exists f,
    spawnFood startSnake rng = Some (f, rng') /\
    s' = mkState startSnake Right Right f 0 (best s) false false false (startPt s).
Proof.
  unfold restart. destruct (spawnFood startSnake rng) as [[f r]|]; [|discriminate].
  intros H. inversion H; subst. exists f. split; reflexivity.
Qed.

Lemma onKey_r (s : State) (rng : Samples) :
  onKey "r" s rng = restart s rng /\ onKey "R" s rng = restart s rng.
Proof.
  split; unfold onKey; cbn;
    destruct (restart s rng) as [[s' rng']| |]; reflexivity.
Qed.

(** C6: from any state, [restart] puts back the three-cell snake
    [(9,9),(8,9),(7,9)], sets [dir] and [nextDir] to right, places the food
    off that snake, and zeroes the score with [dead], [paused] and
    [running] all false, so that no tick happens until a start. *)
Theorem restart_law (s : State) (rng : Samples)
  (Hfree : Exists (fun g => some_same startSnake g = false) rng) :
  exists s' rng',
    restart s rng = Ret (s', rng') /\
    step ClickRestart s rng = Ret (s', rng') /\
    onKey "r" s rng = Ret (s', rng') /\
    snake s' = [mkCell 9 9; mkCell 8 9; mkCell 7 9] /\
    dir s' = Right /\ nextDir s' = Right /\
    ~ In (food s') (snake s') /\
    score s' = 0 /\
    dead s' = false /\ paused s' = false /\ running s' = false /\
    best s' = best s /\
    (forall rng0, step Tick s' rng0 = Ret (s', rng0)).
Proof.
  destruct (spawnFood_returns _ _ Hfree) as (f & rng' & Hspawn).
  assert (Hr : restart s rng =
               Ret (mkState startSnake Right Right f 0 (best s)
                            false false false (startPt s), rng'))
    by (unfold restart; rewrite Hspawn; reflexivity).
  eexists. exists rng'.
  split; [exact Hr|]. split; [exact Hr|].
  split; [rewrite (proj1 (onKey_r s rng)); exact Hr|].
  cbn [snake dir nextDir food score dead paused running best].
  repeat split.
  apply some_same_notIn. exact (spawnFood_off _ _ _ _ Hspawn).
Qed.

(** A restart after a death, the first sample landing on the snake. *)
Lemma restart_law_after_death :
  exists s' rng',
    restart (die 7 wrappedAhead) [mkCell 8 9; mkCell 3 3; mkCell 1 1]
      = Ret (s', rng') /\
    step ClickRestart (die 7 wrappedAhead) [mkCell 8 9; mkCell 3 3; mkCell 1 1]
      = Ret (s', rng') /\
    onKey "r" (die 7 wrappedAhead) [mkCell 8 9; mkCell 3 3; mkCell 1 1]
      = Ret (s', rng') /\
    snake s' = [mkCell 9 9; mkCell 8 9; mkCell 7 9] /\
    dir s' = Right /\ nextDir s' = Right /\
    ~ In (food s') (snake s') /\
    score s' = 0 /\
    dead s' = false /\ paused s' = false /\ running s' = false /\
    best s' = best (die 7 wrappedAhead) /\
    (forall rng0, step Tick s' rng0 = Ret (s', rng0)).
Proof.
  apply (restart_law (die 7 wrappedAhead) [mkCell 8 9; mkCell 3 3; mkCell 1 1]).
  apply Exists_cons_tl, Exists_cons_hd. reflexivity.
Defined.

(** ** Properties kept by every command *)

Section Preservation.

Variable P : State -> Prop.

Hypothesis P_requestDir : forall d s, P s -> P (requestDir d s).
Hypothesis P_setStartPt : forall v s, P s -> P (setStartPt v s).
Hypothesis P_togglePause : forall s, P s -> P (togglePause s).
Hypothesis P_startGame : forall s, P s -> P (startGame s).
Hypothesis P_restart :
  forall s rng s' rng', P s -> restart s rng = Ret (s', rng') -> P s'.

Lemma onKey_keeps (key : string) (s : State) (rng : Samples)
      (s' : State) (rng' : Samples) :
  P s -> onKey key s rng = Ret (s', rng') -> P s'.
Proof.
  intros HP. unfold onKey.
  set (s1 := if (key =? "ArrowUp")%string then requestDir Up s else s).
  assert (H1 : P s1) by (subst s1; destruct (_ =? _)%string; auto).
  clearbody s1.
  set (s2 := if (key =? "ArrowDown")%string then requestDir Down s1 else s1).
  assert (H2 : P s2) by (subst s2; destruct (_ =? _)%string; auto).
  clearbody s2.
  set (s3 := if (key =? "ArrowLeft")%string then requestDir Left s2 else s2).
  assert (H3 : P s3) by (subst s3; destruct (_ =? _)%string; auto).
  clearbody s3.
  set (s4 := if (key =? "ArrowRight")%string then requestDir Right s3 else s3).
  assert (H4 : P s4) by (subst s4; destruct (_ =? _)%string; auto).
  clearbody s4.
  set (s5 := if (key =? " ")%string then togglePause s4 else s4).
  assert (H5 : P s5) by (subst s5; destruct (_ =? _)%string; auto).
  clearbody s5. clear - H5 P_restart P_startGame.
  destruct (lower_is key "r" "R").
  - destruct (restart s5 rng) as [[s6 rng6]| |] eqn:Hr; try discriminate.
    intros H; inversion H; subst.
    destruct (lower_is key "s" "S"); eauto.
  - intros H; inversion H; subst.
    destruct (lower_is key "s" "S"); eauto.
Qed.

Lemma onTouchEnd_keeps (cx cy : Z) (s : State) : P s -> P (onTouchEnd cx cy s).
Proof.
  intros HP. unfold onTouchEnd.
  destruct (startPt s) as [[sx sy]|]; [|exact HP].
  cbn zeta.
  destruct (_ <? 14); [auto|].
  destruct (_ >? _); auto.
Qed.

(** Every command but the tick. *)
Lemma handlers_keep (c : Cmd) (s : State) (rng : Samples)
      (s' : State) (rng' : Samples) :
  c <> Tick -> P s -> step c s rng = Ret (s', rng') -> P s'.
Proof.
  intros Hc HP. destruct c; simpl.
  - apply onKey_keeps; exact HP.
  - intros H; inversion H; subst. apply P_setStartPt; exact HP.
  - intros H; inversion H; subst. apply onTouchEnd_keeps; exact HP.
  - intros H; inversion H; subst. destruct (_ && _); auto.
  - intros H; inversion H; subst. destruct (_ || _); auto.
  - apply P_restart; exact HP.
  - congruence.
Qed.

Hypothesis P_tick :
  forall s rng s' rng', P s -> tick s rng = Ret (s', rng') -> P s'.

Lemma step_keeps (c : Cmd) (s : State) (rng : Samples)
      (s' : State) (rng' : Samples) :
  P s -> step c s rng = Ret (s', rng') -> P s'.
Proof.
  intros HP Hstep.
  assert (Hdec : c = Tick \/ c <> Tick)
    by (destruct c; (left; reflexivity) || (right; discriminate)).
  destruct Hdec as [-> | Hc].
  - simpl in Hstep. destruct (_ || _) in Hstep.
    + inversion Hstep; subst; exact HP.
    + eapply P_tick; eauto.
  - eapply handlers_keep; eauto.
Qed.

End Preservation.

(** ** The three outcomes of a tick that returns *)

Lemma tick_inv (s : State) (rng : Samples) (s' : State) (rng' : Samples) :
  tick s rng = Ret (s', rng') ->
  exists head tl,
    snake s = head :: tl /\
    ((some_same (snake s) (nextCell (nextDir s) head) = true /\
      rng' = rng /\
      s' = setSnake (snake s) (die (score s) (setDir (nextDir s) s))) \/
     (some_same (snake s) (nextCell (nextDir s) head) = false /\
      same (nextCell (nextDir s) head) (food s) = true /\
      exists f,
        spawnFood (nextCell (nextDir s) head :: snake s) rng = Some (f, rng') /\
        s' = setSnake (nextCell (nextDir s) head :: snake s)
               (setFood f (setScore (score s + 1) (setDir (nextDir s) s)))) \/
     (some_same (snake s) (nextCell (nextDir s) head) = false /\
      same (nextCell (nextDir s) head) (food s) = false /\
      rng' = rng /\
      s' = setSnake (removelast (nextCell (nextDir s) head :: snake s))
             (setDir (nextDir s) s))).
Proof.
  intros Ht.
  destruct (snake s) as [|head tl] eqn:Hs; [unfold tick in Ht; rewrite Hs in Ht; discriminate|].
  exists head, tl. split; [reflexivity|]. rewrite <- Hs in *.
  destruct (some_same (snake s) (nextCell (nextDir s) head)) eqn:Hhit.
  - left. rewrite (tick_death s head tl rng Hs Hhit) in Ht.
    inversion Ht; subst. auto.
  - right. destruct (same (nextCell (nextDir s) head) (food s)) eqn:Hfood.
    + left. rewrite (tick_eat s head tl rng Hs Hhit Hfood) in Ht.
      destruct (spawnFood _ rng) as [[f r]|] eqn:Hspawn; [|discriminate].
      inversion Ht; subst. split; [reflexivity|]. split; [reflexivity|].
      exists f. auto.
    + right. rewrite (tick_move s head tl rng Hs Hhit Hfood) in Ht.
      inversion Ht; subst. auto.
Qed.

(** ** The snake stays on the grid, and the tick never throws *)

Lemma step_Tick_live (s : State) (rng : Samples) :
  running s = true -> paused s = false -> dead s = false ->
  step Tick s rng = tick s rng.
Proof. intros Hr Hp Hd. simpl. rewrite Hr, Hp, Hd. reflexivity. Qed.

Lemma snakeOk_tick (s : State) (rng : Samples) (s' : State) (rng' : Samples) :
  snakeOk s -> tick s rng = Ret (s', rng') -> snakeOk s'.
Proof.
  intros [Hne Hall] Ht.
  destruct (tick_inv _ _ _ _ Ht) as (head & tl & Hs &
    [(Hhit & -> & ->) | [(Hhit & Hfood & f & Hspawn & ->) | (Hhit & Hfood & -> & ->)]]).
  - split; assumption.
  - split; cbn [snake setSnake]; [discriminate|].
    constructor; [apply nextCell_inGrid | exact Hall].
  - cbn [snake setSnake setDir] in *. rewrite Hs in *. split.
    + change (removelast (nextCell (nextDir s) head :: head :: tl))
        with (nextCell (nextDir s) head :: removelast (head :: tl)).
      discriminate.
    + apply Forall_forall. intros c Hin. apply In_removelast_In in Hin.
      destruct Hin as [<- | Hin]; [apply nextCell_inGrid|].
      rewrite Forall_forall in Hall. apply Hall. exact Hin.
Qed.

Lemma snakeOk_startSnake : startSnake <> [] /\ Forall inGrid startSnake.
Proof.
  split; [discriminate|].
  repeat constructor; unfold GRID; simpl; lia.
Qed.

Lemma reachable_snakeOk (s : State) : reachable s -> snakeOk s.
Proof.
  induction 1 as [b | c s s' rng rng' _ IH Hstep].
  - exact snakeOk_startSnake.
  - revert IH Hstep. apply (step_keeps snakeOk).
    + intros d t H. exact H.
    + intros v t H. exact H.
    + intros t H. unfold togglePause. destruct (_ || _); exact H.
    + intros t H. exact H.
    + intros t r t' r' _ Hr. destruct (restart_fields _ _ _ _ Hr) as (f & _ & ->).
      exact snakeOk_startSnake.
    + exact snakeOk_tick.
Qed.

Lemma reachable_tick_no_throw (s : State) (rng : Samples) :
  reachable s -> tick s rng <> Throw.
Proof.
  intros Hs. destruct (reachable_snakeOk s Hs) as [Hne _].
  unfold tick. destruct (snake s) as [|head tl]; [congruence|].
  cbn zeta. destruct (some_same _ _); [discriminate|].
  destruct (same (nextCell _ _) _); [|discriminate].
  destruct (spawnFood _ _) as [[f r]|]; discriminate.
Qed.

(** ** Food placement *)

Lemma foodOff_tick (s : State) (rng : Samples) (s' : State) (rng' : Samples) :
  foodOff s -> tick s rng = Ret (s', rng') -> foodOff s'.
Proof.
  unfold foodOff. intros Hoff Ht.
  destruct (tick_inv _ _ _ _ Ht) as (head & tl & Hs &
    [(Hhit & -> & ->) | [(Hhit & Hfood & f & Hspawn & ->) | (Hhit & Hfood & -> & ->)]]).
  - destruct (die_rest (score s) (setDir (nextDir s) s)) as (_ & Hf & _).
    cbn [snake food setSnake]. rewrite Hf. exact Hoff.
  - cbn [snake food setSnake setFood]. exact (spawnFood_off _ _ _ _ Hspawn).
  - cbn [snake food setSnake setDir].
    apply some_same_notIn. intros Hin. apply In_removelast_In in Hin.
    destruct Hin as [Hin | Hin].
    + apply same_neq in Hfood. congruence.
    + apply some_same_notIn in Hoff. contradiction.
Qed.

Lemma foodOff_step (c : Cmd) (s : State) (rng : Samples)
      (s' : State) (rng' : Samples) :
  foodOff s -> step c s rng = Ret (s', rng') -> foodOff s'.
Proof.
  apply (step_keeps foodOff).
  - intros d t H. exact H.
  - intros v t H. exact H.
  - intros t H. unfold togglePause. destruct (_ || _); exact H.
  - intros t H. exact H.
  - intros t r t' r' _ Hr. destruct (restart_fields _ _ _ _ Hr) as (f & Hspawn & ->).
    exact (spawnFood_off _ _ _ _ Hspawn).
  - exact foodOff_tick.
Qed.

(** C5: the cell a respawn returns is not on the snake it was given, the
    respawn returns as soon as a sample off the snake is drawn, and in
    every reachable state the food is on no snake cell. *)
Theorem food_placement :
  (forall s rng f rng', spawnFood s rng = Some (f, rng') -> ~ In f s) /\
  (forall s rng, Exists (fun g => ~ In g s) rng ->
     exists f rng', spawnFood s rng = Some (f, rng')) /\
  (forall s rng s' rng',
     restart s rng = Ret (s', rng') -> ~ In (food s') (snake s')) /\
  (forall s rng s' rng',
     tick s rng = Ret (s', rng') -> food s' <> food s ->
     ~ In (food s') (snake s')) /\
  (forall c s rng s' rng',
     foodOff s -> step c s rng = Ret (s', rng') -> foodOff s') /\
  (forall s, reachable s -> forall c, In c (snake s) -> c <> food s).
Proof.
  split; [|split; [|split; [|split; [|split]]]].
  - intros s rng f rng' H. apply some_same_notIn. exact (spawnFood_off _ _ _ _ H).
  - intros s rng H. apply spawnFood_returns.
    apply Exists_exists in H. destruct H as (g & Hin & Hg).
    apply Exists_exists. exists g. split; [exact Hin | apply some_same_notIn; exact Hg].
  - intros s rng s' rng' Hr.
    destruct (restart_fields _ _ _ _ Hr) as (f & Hspawn & ->).
    apply some_same_notIn. exact (spawnFood_off _ _ _ _ Hspawn).
  - intros s rng s' rng' Ht Hnew.
    destruct (tick_inv _ _ _ _ Ht) as (head & tl & Hs &
      [(Hhit & -> & ->) | [(Hhit & Hfood & f & Hspawn & ->) | (Hhit & Hfood & -> & ->)]]).
    + destruct (die_rest (score s) (setDir (nextDir s) s)) as (_ & Hf & _).
      cbn [food setSnake] in Hnew. rewrite Hf in Hnew. contradiction Hnew; reflexivity.
    + apply some_same_notIn. exact (spawnFood_off _ _ _ _ Hspawn).
    + contradiction Hnew; reflexivity.
  - exact foodOff_step.
  - intros s Hs.
    assert (Hoff : foodOff s).
    { induction Hs as [b | c s s' rng rng' _ IH Hstep].
      - reflexivity.
      - exact (foodOff_step _ _ _ _ _ IH Hstep). }
    intros c Hin E. subst c.
    apply some_same_notIn in Hoff. contradiction.
Qed.

(** Eating with two samples on the grown snake drawn first. *)
Lemma food_placement_after_eating :
  exists s',
    step Tick aboutToEat [mkCell 9 9; mkCell 10 9; mkCell 2 3] = Ret (s', []) /\
    food s' = mkCell 2 3 /\ foodOff s'.
Proof.
  eexists. split; [reflexivity|]. split; [reflexivity|].
  apply (proj1 (proj2 (proj2 (proj2 (proj2 food_placement)))) Tick aboutToEat
           [mkCell 9 9; mkCell 10 9; mkCell 2 3] _ []);
    reflexivity.
Defined.

(** ** Lifecycle flags *)

Lemma flagsOk_tick (s : State) (rng : Samples) (s' : State) (rng' : Samples) :
  flagsOk s -> tick s rng = Ret (s', rng') -> flagsOk s'.
Proof.
  intros Hok Ht.
  destruct (tick_inv _ _ _ _ Ht) as (head & tl & Hs &
    [(Hhit & -> & ->) | [(Hhit & Hfood & f & Hspawn & ->) | (Hhit & Hfood & -> & ->)]]).
  - intros _. destruct (die_flags (score s) (setDir (nextDir s) s)) as (_ & Hr & Hp).
    split; assumption.
  - exact Hok.
  - exact Hok.
Qed.

Lemma flagsOk_togglePause (s : State) : flagsOk s -> flagsOk (togglePause s).
Proof.
  unfold togglePause, flagsOk.
  destruct (running s) eqn:Hr, (dead s) eqn:Hd; simpl; try rewrite Hr, Hd; auto;
    simpl; congruence.
Qed.

Lemma flagsOk_step (c : Cmd) (s : State) (rng : Samples)
      (s' : State) (rng' : Samples) :
  flagsOk s -> step c s rng = Ret (s', rng') -> flagsOk s'.
Proof.
  apply (step_keeps flagsOk).
  - intros d t H. exact H.
  - intros v t H. exact H.
  - exact flagsOk_togglePause.
  - intros t _. unfold flagsOk. simpl. discriminate.
  - intros t r t' r' _ Hr. destruct (restart_fields _ _ _ _ Hr) as (f & _ & ->).
    unfold flagsOk. simpl. discriminate.
  - exact flagsOk_tick.
Qed.

(** C9: in every reachable state [dead] excludes [running] and [paused],
    and start, the pause toggle, restart, dying and every command of the
    event loop keep it so. *)
Theorem flags_law :
  (forall s, reachable s -> flagsOk s) /\
  (forall c s rng s' rng',
     flagsOk s -> step c s rng = Ret (s', rng') -> flagsOk s') /\
  (forall s, flagsOk (startGame s)) /\
  (forall s, flagsOk s -> flagsOk (togglePause s)) /\
  (forall s rng s' rng', restart s rng = Ret (s', rng') -> flagsOk s') /\
  (forall fs s, flagsOk (die fs s)).
Proof.
  repeat apply conj.
  - intros s Hs. induction Hs as [b | c s s' rng rng' _ IH Hstep].
    + unfold flagsOk. simpl. discriminate.
    + exact (flagsOk_step _ _ _ _ _ IH Hstep).
  - exact flagsOk_step.
  - intros s. unfold flagsOk. simpl. discriminate.
  - exact flagsOk_togglePause.
  - intros s rng s' rng' Hr. destruct (restart_fields _ _ _ _ Hr) as (f & _ & ->).
    unfold flagsOk. simpl. discriminate.
  - intros fs s _. destruct (die_flags fs s) as (_ & Hr & Hp). split; assumption.
Qed.

(** The flags after the tick that kills the wrapped snake. *)
Lemma flags_law_at_death :
  exists s',
    step Tick wrapped [] = Ret (s', []) /\ dead s' = true /\
    running s' = false /\ paused s' = false.
Proof.
  eexists. split; [reflexivity|]. split; [reflexivity|].
  apply (proj1 (proj2 flags_law) Tick wrapped [] _ []).
  - unfold flagsOk. simpl. discriminate.
  - reflexivity.
  - reflexivity.
Defined.

(** ** Best score *)

Lemma best_handlers (c : Cmd) (s : State) (rng : Samples)
      (s' : State) (rng' : Samples) :
  c <> Tick -> step c s rng = Ret (s', rng') -> best s' = best s.
Proof.
  intros Hc Hstep.
  refine (handlers_keep (fun t => best t = best s) _ _ _ _ _
            c s rng s' rng' Hc _ Hstep).
  - intros d t H. exact H.
  - intros v t H. exact H.
  - intros t H. unfold togglePause. destruct (_ || _); exact H.
  - intros t H. exact H.
  - intros t r t' r' H Hr. destruct (restart_fields _ _ _ _ Hr) as (f & _ & ->).
    exact H.
  - reflexivity.
Qed.

Lemma step_best (c : Cmd) (s : State) (rng : Samples)
      (s' : State) (rng' : Samples) :
  step c s rng = Ret (s', rng') ->
  (dies c s = true -> best s' = Z.max (best s) (score s)) /\
  (dies c s = false -> best s' = best s).
Proof.
  intros Hstep.
  assert (Hdec : c = Tick \/ c <> Tick)
    by (destruct c; (left; reflexivity) || (right; discriminate)).
  destruct Hdec as [-> | Hc].
  - simpl in Hstep. unfold dies.
    destruct (negb (running s) || paused s || dead s) eqn:Hidle.
    + inversion Hstep; subst. simpl.
      split; [destruct (snake s'); discriminate | reflexivity].
    + destruct (tick_inv _ _ _ _ Hstep) as (head & tl & Hs &
        [(Hhit & -> & ->) | [(Hhit & Hfood & f & Hspawn & ->) | (Hhit & Hfood & -> & ->)]]);
        rewrite Hs in *; rewrite Hhit; simpl; split; intros E; try discriminate E.
      * rewrite die_best. reflexivity.
      * reflexivity.
      * reflexivity.
  - split.
    + unfold dies. destruct c; try discriminate. congruence.
    + intros _. exact (best_handlers _ _ _ _ _ Hc Hstep).
Qed.

(** C7: dying sets the best score to the larger of the best score and the
    final score, every other transition leaves it as it was, and so it
    never decreases along any sequence of transitions. *)
Theorem best_score_law :
  (forall fs s, best (die fs s) = Z.max (best s) fs) /\
  (forall c s rng s' rng',
     step c s rng = Ret (s', rng') ->
     (dies c s = true -> best s' = Z.max (best s) (score s)) /\
     (dies c s = false -> best s' = best s)) /\
  (forall s s', steps s s' -> best s <= best s').
Proof.
  split; [exact die_best|]. split; [exact step_best|].
  intros s s' H. induction H as [s | c s s' s'' rng rng' Hstep _ IH].
  - lia.
  - destruct (step_best _ _ _ _ _ Hstep) as [Hd Hn].
    destruct (dies c s); [rewrite Hd in IH by reflexivity | rewrite Hn in IH by reflexivity]; lia.
Qed.

(** Dying with score 7 against a best of 3. *)
Lemma best_score_law_beaten :
  exists s',
    step Tick wrappedAhead [] = Ret (s', []) /\
    best wrappedAhead = 3 /\ score wrappedAhead = 7 /\ best s' = 7.
Proof.
  eexists. split; [reflexivity|]. split; [reflexivity|]. split; [reflexivity|].
  change 7 with (Z.max (best wrappedAhead) (score wrappedAhead)).
  apply (proj1 (proj1 (proj2 best_score_law) Tick wrappedAhead [] _ [] eq_refl)).
  reflexivity.
Defined.

(** ** Direction requests *)




Lemma onTouchEnd_swipe (s : State) (px py cx cy : Z) :
  startPt s = Some (px, py) ->
  onTouchEnd cx cy s =
    match swipeDir (cx - px) (cy - py) with
    | None => setStartPt None s
    | Some r => requestDir r (setStartPt None s)
    end.
Proof.
  intros H. unfold onTouchEnd, swipeDir. rewrite H. cbn zeta.
  destruct (_ <? 14); [reflexivity|].
  destruct (Z.abs (cx - px) >? Z.abs (cy - py)); reflexivity.
Qed.




(** * Further properties of the code *)

(** ** Directions and steps on the torus *)

(** X1: two directions are opposite exactly when their unit vectors cancel;
    the test is symmetric, no direction is its own opposite, and a
    direction has one opposite only. *)
Theorem isOpposite_vectors (a b : Dir) :
  (isOpposite a b = true <->
   x (dirVec a) + x (dirVec b) = 0 /\ y (dirVec a) + y (dirVec b) = 0) /\
  isOpposite a b = isOpposite b a /\
  isOpposite a a = false /\
  (forall c, isOpposite a b = true -> isOpposite a c = true -> b = c).
Proof.
  repeat apply conj.
  - destruct a, b; simpl; intros; try discriminate; auto.
  - destruct a, b; simpl; intros [H1 H2]; try reflexivity; discriminate.
  - destruct a, b; reflexivity.
  - destruct a; reflexivity.
  - intros c. destruct a, b, c; simpl; intros; try discriminate; reflexivity.
Qed.

(** Up and down cancel, and down is the only opposite of up. *)
Lemma isOpposite_vectors_up_down :
  x (dirVec Up) + x (dirVec Down) = 0 /\ y (dirVec Up) + y (dirVec Down) = 0.
Proof.
  apply (proj1 (proj1 (isOpposite_vectors Up Down))). reflexivity.
Defined.

(** X2: on the grid a step is addition of the unit vector modulo 18 on each
    axis. *)
Theorem nextCell_mod (d : Dir) (c : Cell) (Hc : inGrid c) :
  nextCell d c =
    mkCell ((x c + x (dirVec d)) mod GRID) ((y c + y (dirVec d)) mod GRID).
Proof.
  destruct c as [cx cy]. destruct Hc as [Hx Hy]. unfold GRID in *. simpl in *.
  assert (W : forall n, -1 <= n <= 18 -> wrap n = n mod 18).
  { intros n Hn. unfold wrap, GRID.
    destruct (n <? 0) eqn:E1.
    - assert (n = -1) by lia. subst. reflexivity.
    - destruct (n >=? 18) eqn:E2.
      + assert (n = 18) by lia. subst. reflexivity.
      + symmetry. apply Z.mod_small. lia. }
  unfold nextCell. cbn [x y]. f_equal; apply W; destruct d; simpl; lia.
Qed.

(** Leaving the grid on the right from (17,4) enters it at (0,4). *)
Lemma nextCell_mod_right_edge :
  nextCell Right (mkCell 17 4) = mkCell ((17 + 1) mod GRID) ((4 + 0) mod GRID).
Proof.
  apply (nextCell_mod Right (mkCell 17 4)). unfold inGrid, GRID. simpl. lia.
Defined.

Lemma wrap_forth_back (n : Z) : 0 <= n < GRID -> wrap (wrap (n + 1) + -1) = n.
Proof.
  unfold GRID. intros H. destruct (Z.eq_dec n 17) as [-> | Hn]; [reflexivity|].
  rewrite (wrap_fix (n + 1)) by (unfold GRID; lia).
  replace (n + 1 + -1) with n by lia. apply wrap_fix. unfold GRID; lia.
Qed.

Lemma wrap_back_forth (n : Z) : 0 <= n < GRID -> wrap (wrap (n + -1) + 1) = n.
Proof.
  unfold GRID. intros H. destruct (Z.eq_dec n 0) as [-> | Hn]; [reflexivity|].
  rewrite (wrap_fix (n + -1)) by (unfold GRID; lia).
  replace (n + -1 + 1) with n by lia. apply wrap_fix. unfold GRID; lia.
Qed.

Lemma wrap_stay (n : Z) : 0 <= n < GRID -> wrap (wrap (n + 0) + 0) = n.
Proof.
  intros H. rewrite !Z.add_0_r. rewrite (wrap_fix n H). exact (wrap_fix n H).
Qed.

Lemma nextCell_back (d d' : Dir) (c : Cell) :
  isOpposite d d' = true -> inGrid c -> nextCell d' (nextCell d c) = c.
Proof.
  destruct c as [cx cy]. intros Hop [Hx Hy]. simpl in Hx, Hy.
  destruct d, d'; try discriminate Hop; unfold nextCell; cbn [x y dirVec];
    f_equal;
    first [apply wrap_stay | apply wrap_forth_back | apply wrap_back_forth];
    assumption.
Qed.

(** X3: on the grid, a step followed by a step in the opposite direction
    comes back to the cell it left, and a step in a given direction sends
    different cells to different cells. *)
Theorem step_round_trip (d : Dir) :
  (forall d' c, isOpposite d d' = true -> inGrid c ->
     nextCell d' (nextCell d c) = c) /\
  (forall a b, inGrid a -> inGrid b -> nextCell d a = nextCell d b -> a = b).
Proof.
  split; [intros d' c; apply nextCell_back|].
  intros a b Ha Hb E.
  assert (Hop : exists d', isOpposite d d' = true)
    by (destruct d; [exists Down | exists Up | exists Right | exists Left]; reflexivity).
  destruct Hop as (d' & Hop).
  rewrite <- (nextCell_back d d' a Hop Ha), <- (nextCell_back d d' b Hop Hb), E.
  reflexivity.
Qed.

(** Right then left across the edge, from (17,9). *)
Lemma step_round_trip_edge :
  nextCell Left (nextCell Right (mkCell 17 9)) = mkCell 17 9.
Proof.
  apply (proj1 (step_round_trip Right) Left (mkCell 17 9)).
  - reflexivity.
  - unfold inGrid, GRID. simpl. lia.
Defined.

(** ** Speed curve, continued *)

Lemma speed_mono (a b : Z) : a <= b -> speed a <= speed b.
Proof.
  intros H. unfold speed.
  assert (a / 5 <= b / 5) by (apply Z.div_le_mono; lia). lia.
Qed.

(** X4: for scores from 0 on, the speed is odd and at least 9 and never
    drops as the score grows; the period never grows with the score and
    stays between 55 and 111 milliseconds. *)
Theorem period_monotone (a b : Z) (Ha : 0 <= a) (Hab : a <= b) :
  9 <= speed a <= speed b /\
  speed a mod 2 = 1 /\
  period b <= period a /\
  55 <= period b /\ period a <= 111.
Proof.
  assert (Hq : 0 <= a / 5) by (apply Z.div_pos; lia).
  assert (Hs : 9 <= speed a) by (unfold speed; lia).
  pose proof (speed_mono a b Hab) as Hm.
  assert (Hdiv : 1000 / speed b <= 1000 / speed a)
    by (apply Z.div_le_compat_l; lia).
  assert (Htop : 1000 / speed a <= 1000 / 9)
    by (apply Z.div_le_compat_l; lia).
  change (1000 / 9) with 111 in Htop.
  repeat apply conj; try lia.
  - unfold speed. cbn zeta.
    replace (9 + a / 5 * 2) with (1 + (4 + a / 5) * 2) by lia.
    rewrite Z.mod_add by lia. reflexivity.
  - unfold period, tickMs. lia.
  - unfold period, tickMs. lia.
  - unfold period, tickMs. lia.
Qed.

(** Scores 3 and 12. *)
Lemma period_monotone_3_12 :
  9 <= speed 3 <= speed 12 /\ speed 3 mod 2 = 1 /\
  period 12 <= period 3 /\ 55 <= period 12 /\ period 3 <= 111.
Proof. apply (period_monotone 3 12); lia. Defined.

(** ** Reachable states, continued *)

Lemma run_reachable (cs : list Cmd) (s : State) (rng : Samples)
      (s' : State) (rng' : Samples) :
  reachable s -> run cs s rng = Ret (s', rng') -> reachable s'.
Proof.
  revert s rng. induction cs as [|c cs IH]; intros s rng Hs; simpl.
  - intros H; inversion H; subst; exact Hs.
  - destruct (step c s rng) as [[s1 rng1]| |] eqn:Hstep; try discriminate.
    apply IH. exact (reach_step c s s1 rng rng1 Hs Hstep).
Qed.

Lemma turningUp_reachable : reachable turningUp.
Proof.
  apply (run_reachable [ClickStart; Key "ArrowUp"] (init 0) [] turningUp []).
  - apply reach_init.
  - reflexivity.
Qed.

Lemma restart_no_throw (s : State) (rng : Samples) : restart s rng <> Throw.
Proof.
  unfold restart. destruct (spawnFood startSnake rng) as [[f r]|]; discriminate.
Qed.

Lemma onKey_no_throw (key : string) (s : State) (rng : Samples) :
  onKey key s rng <> Throw.
Proof.
  unfold onKey. destruct (lower_is key "r" "R"); [|discriminate].
  match goal with |- context [restart ?t rng] =>
    pose proof (restart_no_throw t rng) as Hr;
    destruct (restart t rng) as [[s1 r1]| |] end;
    [discriminate | congruence | discriminate].
Qed.

(** X5: in every reachable state the snake has a head and all its cells
    are on the grid, and no command raises an error there. *)
Theorem snake_on_grid (s : State) (Hs : reachable s) :
  snake s <> [] /\
  Forall inGrid (snake s) /\
  (forall c rng, step c s rng <> Throw).
Proof.
  destruct (reachable_snakeOk s Hs) as [Hne Hall].
  split; [exact Hne|]. split; [exact Hall|].
  intros c rng. destruct c; simpl; try discriminate.
  - apply onKey_no_throw.
  - apply restart_no_throw.
  - destruct (_ || _); [discriminate|].
    apply reachable_tick_no_throw. exact Hs.
Qed.

(** The state with up queued while moving right. *)
Lemma snake_on_grid_turning :
  snake turningUp <> [] /\
  Forall inGrid (snake turningUp) /\
  (forall c rng, step c turningUp rng <> Throw).
Proof. apply (snake_on_grid turningUp). exact turningUp_reachable. Defined.

(** The handlers' side of an invariant that only the snake, the score and
    the best score decide. *)
Ltac handlers_frame :=
  [> intros ? ? H; exact H
   | intros ? ? H; exact H
   | intros ? H; unfold togglePause; destruct (_ || _); exact H
   | intros ? H; exact H
   | .. ].

Lemma lengthOk_step (c : Cmd) (s : State) (rng : Samples)
      (s' : State) (rng' : Samples) :
  lengthOk s -> step c s rng = Ret (s', rng') -> lengthOk s'.
Proof.
  apply (step_keeps lengthOk); handlers_frame.
  - intros t r t' r' _ Hr. destruct (restart_fields _ _ _ _ Hr) as (f & _ & ->).
    reflexivity.
  - intros t r t' r' Hok Ht. unfold lengthOk in *.
    destruct (tick_inv _ _ _ _ Ht) as (head & tl & Hs &
      [(Hhit & -> & ->) | [(Hhit & Hfood & f & Hspawn & ->) | (Hhit & Hfood & -> & ->)]]).
    + destruct (die_rest (score t) (setDir (nextDir t) t)) as (_ & _ & Hsc & _).
      cbn [snake score setSnake]. rewrite Hsc. exact Hok.
    + cbn [snake score setSnake setFood setScore]. cbn [length]. lia.
    + cbn [snake score setSnake setDir]. rewrite Hs, length_removelast_cons.
      rewrite <- Hs. exact Hok.
Qed.

(** X6: in every reachable state the snake has exactly three cells more
    than the score, so the score is never negative and the snake never has
    fewer than three cells. *)
Theorem length_follows_score (s : State) (Hs : reachable s) :
  Z.of_nat (length (snake s)) = 3 + score s /\
  0 <= score s /\
  (3 <= length (snake s))%nat.
Proof.
  assert (Hok : lengthOk s).
  { induction Hs as [b | c s s' rng rng' _ IH Hstep].
    - reflexivity.
    - exact (lengthOk_step _ _ _ _ _ IH Hstep). }
  unfold lengthOk in Hok.
  assert (3 <= length (snake s))%nat.
  { destruct (reachable_snakeOk s Hs) as [Hne _].
    assert (Hgoal : 0 <= score s -> (3 <= length (snake s))%nat) by lia.
    apply Hgoal. clear Hgoal Hne Hok.
    induction Hs as [b | c s s' rng rng' Hs IH Hstep]; [simpl; lia|].
    revert IH Hstep. apply (step_keeps (fun t => 0 <= score t)); handlers_frame.
    - intros t r t' r' _ Hr. destruct (restart_fields _ _ _ _ Hr) as (f & _ & ->).
      simpl. lia.
    - intros t r t' r' Hok Ht.
      destruct (tick_inv _ _ _ _ Ht) as (head & tl & Hsn &
        [(Hhit & -> & ->) | [(Hhit & Hfood & f & Hspawn & ->) | (Hhit & Hfood & -> & ->)]]).
      + destruct (die_rest (score t) (setDir (nextDir t) t)) as (_ & _ & Hsc & _).
        cbn [score setSnake]. rewrite Hsc. exact Hok.
      + simpl. lia.
      + exact Hok. }
  repeat split; [exact Hok | lia | assumption].
Qed.

(** Three cells at score 0. *)
Lemma length_follows_score_turning :
  Z.of_nat (length (snake turningUp)) = 3 + score turningUp /\
  0 <= score turningUp /\
  (3 <= length (snake turningUp))%nat.
Proof. apply (length_follows_score turningUp). exact turningUp_reachable. Defined.

Lemma NoDup_removelast {A : Type} (l : list A) : NoDup l -> NoDup (removelast l).
Proof.
  induction l as [|a l IH]; [intros; constructor|].
  intros H. inversion H as [|? ? Hnotin Hnd]; subst.
  destruct l as [|b l]; [constructor|].
  change (removelast (a :: b :: l)) with (a :: removelast (b :: l)).
  constructor; [|apply IH; exact Hnd].
  intros Hin. apply Hnotin. apply In_removelast_In. exact Hin.
Qed.

Lemma axis_spec (i : Z) : In i axis <-> 0 <= i < 18.
Proof.
  unfold axis. rewrite in_map_iff. split.
  - intros (n & <- & Hn). apply in_seq in Hn. lia.
  - intros H. exists (Z.to_nat i). split; [lia|]. apply in_seq. lia.
Qed.

Lemma allCells_spec (c : Cell) : In c allCells <-> inGrid c.
Proof.
  unfold allCells, inGrid, GRID. rewrite in_flat_map. split.
  - intros (i & Hi & Hc). apply in_map_iff in Hc. destruct Hc as (j & <- & Hj).
    apply axis_spec in Hi. apply axis_spec in Hj. simpl. lia.
  - intros [Hx Hy]. exists (x c). split; [apply axis_spec; exact Hx|].
    apply in_map_iff. exists (y c). split; [destruct c; reflexivity|].
    apply axis_spec. exact Hy.
Qed.

Lemma NoDup_tick (s : State) (rng : Samples) (s' : State) (rng' : Samples) :
  NoDup (snake s) -> tick s rng = Ret (s', rng') -> NoDup (snake s').
Proof.
  intros Hnd Ht.
  destruct (tick_inv _ _ _ _ Ht) as (head & tl & Hs &
    [(Hhit & -> & ->) | [(Hhit & Hfood & f & Hspawn & ->) | (Hhit & Hfood & -> & ->)]]);
    cbn [snake setSnake setDir].
  - exact Hnd.
  - constructor; [apply some_same_notIn; exact Hhit | exact Hnd].
  - apply NoDup_removelast.
    constructor; [apply some_same_notIn; exact Hhit | exact Hnd].
Qed.

Lemma NoDup_startSnake : NoDup startSnake.
Proof.
  unfold startSnake.
  repeat constructor; simpl; intros H;
    repeat (destruct H as [H | H]; [discriminate H|]); exact H.
Qed.

Lemma reachable_NoDup (s : State) : reachable s -> NoDup (snake s).
Proof.
  induction 1 as [b | c s s' rng rng' _ IH Hstep]; [exact NoDup_startSnake|].
  revert IH Hstep. apply (step_keeps (fun t => NoDup (snake t))); handlers_frame.
  - intros t r t' r' _ Hr. destruct (restart_fields _ _ _ _ Hr) as (f & _ & ->).
    exact NoDup_startSnake.
  - exact NoDup_tick.
Qed.

(** X7: in every reachable state no cell occurs twice in the snake; the
    snake therefore has at most 324 cells and the score is at most 321. *)
Theorem snake_never_overlaps (s : State) (Hs : reachable s) :
  NoDup (snake s) /\
  (length (snake s) <= 324)%nat /\
  score s <= 321.
Proof.
  pose proof (reachable_NoDup s Hs) as Hnd.
  assert (Hlen : (length (snake s) <= length allCells)%nat).
  { apply NoDup_incl_length; [exact Hnd|].
    destruct (reachable_snakeOk s Hs) as [_ Hall].
    intros c Hin. apply allCells_spec.
    rewrite Forall_forall in Hall. apply Hall. exact Hin. }
  change (length allCells) with 324%nat in Hlen.
  assert (Hok : lengthOk s).
  { clear Hnd Hlen. induction Hs as [b | c s s' rng rng' _ IH Hstep].
    - reflexivity.
    - exact (lengthOk_step _ _ _ _ _ IH Hstep). }
  unfold lengthOk in Hok.
  split; [exact Hnd|]. split; [exact Hlen | lia].
Qed.

(** The state with up queued while moving right. *)
Lemma snake_never_overlaps_turning :
  NoDup (snake turningUp) /\
  (length (snake turningUp) <= 324)%nat /\
  score turningUp <= 321.
Proof. apply (snake_never_overlaps turningUp). exact turningUp_reachable. Defined.

Lemma linked_removelast (l : list Cell) : linked l -> linked (removelast l).
Proof.
  induction l as [|a l IH]; [auto|].
  destruct l as [|b l]; [auto|].
  intros [Hab Hrest].
  change (removelast (a :: b :: l)) with (a :: removelast (b :: l)).
  specialize (IH Hrest).
  destruct l as [|c l]; [exact I|].
  change (removelast (b :: c :: l)) with (b :: removelast (c :: l)) in *.
  split; [exact Hab | exact IH].
Qed.

Lemma linked_startSnake : linked startSnake.
Proof.
  unfold startSnake. simpl. repeat split; exists Right; reflexivity.
Qed.

(** X8: in every reachable state each snake cell is one wrapped step, in
    some direction, away from the cell behind it. *)
Theorem snake_connected (s : State) (Hs : reachable s) : linked (snake s).
Proof.
  induction Hs as [b | c s s' rng rng' _ IH Hstep]; [exact linked_startSnake|].
  revert IH Hstep. apply (step_keeps (fun t => linked (snake t))); handlers_frame.
  - intros t r t' r' _ Hr. destruct (restart_fields _ _ _ _ Hr) as (f & _ & ->).
    exact linked_startSnake.
  - intros t r t' r' Hl Ht.
    destruct (tick_inv _ _ _ _ Ht) as (head & tl & Hsn &
      [(Hhit & -> & ->) | [(Hhit & Hfood & f & Hspawn & ->) | (Hhit & Hfood & -> & ->)]]);
      cbn [snake setSnake setDir].
    + exact Hl.
    + rewrite Hsn in *. split; [exists (nextDir t); reflexivity | exact Hl].
    + apply linked_removelast. rewrite Hsn in *.
      split; [exists (nextDir t); reflexivity | exact Hl].
Qed.

(** The start snake in the state with up queued. *)
Lemma snake_connected_turning : linked (snake turningUp).
Proof. apply (snake_connected turningUp). exact turningUp_reachable. Defined.

(** ** Score, food and best score *)

Lemma bestOk_step (c : Cmd) (s : State) (rng : Samples)
      (s' : State) (rng' : Samples) :
  bestOk s -> step c s rng = Ret (s', rng') -> bestOk s'.
Proof.
  intros Hok Hstep.
  assert (Hdec : c = Tick \/ c <> Tick)
    by (destruct c; (left; reflexivity) || (right; discriminate)).
  destruct Hdec as [-> | Hc].
  - simpl in Hstep.
    destruct (negb (running s) || paused s || dead s) eqn:Hidle.
    + inversion Hstep; subst. exact Hok.
    + apply orb_false_iff in Hidle. destruct Hidle as [_ Hdead].
      destruct (tick_inv _ _ _ _ Hstep) as (head & tl & Hs &
        [(Hhit & -> & ->) | [(Hhit & Hfood & f & Hspawn & ->) | (Hhit & Hfood & -> & ->)]]);
        unfold bestOk; cbn [dead score best setSnake setFood setScore setDir].
      * intros _.
        destruct (die_rest (score s) (setDir (nextDir s) s)) as (_ & _ & Hsc & _).
        rewrite Hsc, die_best. cbn [score best setDir]. lia.
      * rewrite Hdead. discriminate.
      * rewrite Hdead. discriminate.
  - revert Hok Hstep. apply (handlers_keep bestOk).
    + intros d t H. exact H.
    + intros v t H. exact H.
    + intros t H. unfold togglePause. destruct (_ || _); exact H.
    + intros t _. unfold bestOk. simpl. discriminate.
    + intros t r t' r' _ Hr. destruct (restart_fields _ _ _ _ Hr) as (f & _ & ->).
      unfold bestOk. simpl. discriminate.
    + exact Hc.
Qed.

(** X9: in every reachable state that shows a game over, the best score is
    at least the score. *)
Theorem best_covers_final_score (s : State) (Hs : reachable s)
  (Hdead : dead s = true) : score s <= best s.
Proof.
  revert Hdead. change (bestOk s).
  induction Hs as [b | c s s' rng rng' _ IH Hstep].
  - unfold bestOk. simpl. discriminate.
  - exact (bestOk_step _ _ _ _ _ IH Hstep).
Qed.

(** The reversal into the neck from the state with up queued. *)
Lemma best_covers_final_score_reversal :
  score (die 0 (setDir Left (setNextDir Left turningUp)))
  <= best (die 0 (setDir Left (setNextDir Left turningUp))).
Proof.
  apply (best_covers_final_score
           (die 0 (setDir Left (setNextDir Left turningUp)))).
  - apply (run_reachable [Key "ArrowLeft"; Tick] turningUp [] _ []).
    + exact turningUp_reachable.
    + reflexivity.
  - reflexivity.
Defined.

(** X10: a tick that returns either raises the score by one, moves the
    food to another cell off the new snake and puts the head on the old
    food cell, or leaves both the score and the food as they were. *)
Theorem food_moves_with_score (s : State) (rng : Samples)
  (s' : State) (rng' : Samples) (Ht : tick s rng = Ret (s', rng')) :
  (score s' = score s + 1 /\ food s' <> food s /\
   ~ In (food s') (snake s') /\ hd_error (snake s') = Some (food s)) \/
  (score s' = score s /\ food s' = food s /\ rng' = rng).
Proof.
  destruct (tick_inv _ _ _ _ Ht) as (head & tl & Hs &
    [(Hhit & -> & ->) | [(Hhit & Hfood & f & Hspawn & ->) | (Hhit & Hfood & -> & ->)]]).
  - right. destruct (die_rest (score s) (setDir (nextDir s) s)) as (_ & Hf & Hsc & _).
    cbn [score food setSnake]. rewrite Hf, Hsc. auto.
  - left. apply same_eq in Hfood.
    pose proof (spawnFood_off _ _ _ _ Hspawn) as Hoff.
    apply some_same_notIn in Hoff.
    cbn [score food snake setSnake setFood setScore setDir hd_error].
    repeat split.
    + intros E. apply Hoff. left. congruence.
    + exact Hoff.
    + congruence.
  - right. auto.
Qed.

(** Eating the cell to the right of the start snake. *)
Lemma food_moves_with_score_first_bite :
  exists s',
    tick aboutToEat [mkCell 2 3] = Ret (s', []) /\
    ((score s' = score aboutToEat + 1 /\ food s' <> food aboutToEat /\
      ~ In (food s') (snake s') /\
      hd_error (snake s') = Some (food aboutToEat)) \/
     (score s' = score aboutToEat /\ food s' = food aboutToEat /\
      [] = [mkCell 2 3])).
Proof.
  eexists. split; [reflexivity|].
  apply (food_moves_with_score aboutToEat [mkCell 2 3] _ []). reflexivity.
Defined.

(** X11: a key, touch or button event other than a tick leaves the best
    score alone, and either leaves the snake, the food and the score alone
    or is a restart that put back the start snake with score 0. *)
Theorem handlers_leave_game (c : Cmd) (s : State) (rng : Samples)
  (s' : State) (rng' : Samples)
  (Hc : c <> Tick) (Hstep : step c s rng = Ret (s', rng')) :
  best s' = best s /\
  ((snake s' = snake s /\ food s' = food s /\ score s' = score s) \/
   (snake s' = startSnake /\ score s' = 0 /\ ~ In (food s') startSnake)).
Proof.
  split; [exact (best_handlers _ _ _ _ _ Hc Hstep)|].
  refine (handlers_keep
            (fun t => (snake t = snake s /\ food t = food s /\ score t = score s) \/
                      (snake t = startSnake /\ score t = 0 /\
                       ~ In (food t) startSnake))
            _ _ _ _ _ c s rng s' rng' Hc _ Hstep).
  - intros d t H. exact H.
  - intros v t H. exact H.
  - intros t H. unfold togglePause. destruct (_ || _); exact H.
  - intros t H. exact H.
  - intros t r t' r' _ Hr. destruct (restart_fields _ _ _ _ Hr) as (f & Hsp & ->).
    right. cbn [snake score food]. split; [reflexivity|]. split; [reflexivity|].
    apply (proj1 (some_same_notIn startSnake f)).
    exact (spawnFood_off _ _ _ _ Hsp).
  - left. auto.
Qed.

(** The "r" key pressed in the state with up queued. *)
Lemma handlers_leave_game_restart_key :
  exists s',
    step (Key "r") turningUp [mkCell 3 3] = Ret (s', []) /\
    best s' = best turningUp /\
    ((snake s' = snake turningUp /\ food s' = food turningUp /\
      score s' = score turningUp) \/
     (snake s' = startSnake /\ score s' = 0 /\ ~ In (food s') startSnake)).
Proof.
  eexists. split; [reflexivity|].
  apply (handlers_leave_game (Key "r") turningUp [mkCell 3 3] _ []).
  - discriminate.
  - reflexivity.
Defined.

(** ** Keyboard, pause and start *)

(** X12: a key other than the four arrows, the space, "r", "R", "s" and
    "S" changes nothing and draws no sample. *)
Theorem onKey_other_key (key : string) (s : State) (rng : Samples)
  (Hkey : handledKey key = false) : onKey key s rng = Ret (s, rng).
Proof.
  unfold handledKey in Hkey.
  repeat (apply orb_false_iff in Hkey; destruct Hkey as [Hkey ?]).
  unfold onKey.
  repeat match goal with
         | H : _ = false |- _ => rewrite H; clear H
         end.
  reflexivity.
Qed.

(** The Enter key. *)
Lemma onKey_other_key_enter : onKey "Enter" turningUp [] = Ret (turningUp, []).
Proof. apply (onKey_other_key "Enter" turningUp []). reflexivity. Defined.

(** X13: toggling the pause twice gives back the state; once, in a ticking
    game, it stops the ticks, and the space key is the toggle. *)
Theorem togglePause_twice (s : State) :
  togglePause (togglePause s) = s /\
  (forall rng, onKey " " s rng = Ret (togglePause s, rng)) /\
  (ticking s = true ->
   paused (togglePause s) = true /\
   forall rng, step Tick (togglePause s) rng = Ret (togglePause s, rng)).
Proof.
  repeat apply conj.
  - unfold togglePause. destruct s as [sn d nd f sc b r p de st]; simpl.
    destruct r, de; simpl; try reflexivity. rewrite negb_involutive. reflexivity.
  - intros rng. reflexivity.
  - unfold ticking, togglePause. intros H.
    apply andb_true_iff in H. destruct H as [H Hd].
    apply andb_true_iff in H. destruct H as [Hr Hp].
    apply negb_true_iff in Hd, Hp. rewrite Hr, Hd, Hp. simpl.
    split; [reflexivity|]. intros rng. rewrite Hr. reflexivity.
Qed.

(** Pausing the running game with up queued. *)
Lemma togglePause_twice_running :
  paused (togglePause turningUp) = true /\
  forall rng, step Tick (togglePause turningUp) rng = Ret (togglePause turningUp, rng).
Proof. apply (proj2 (proj2 (togglePause_twice turningUp))). reflexivity. Defined.

Lemma run_cons (c : Cmd) (cs : list Cmd) (s : State) (rng : Samples) :
  run (c :: cs) s rng =
    match step c s rng with
    | Ret (s', rng') => run cs s' rng'
    | Throw => Throw
    | Spin => Spin
    end.
Proof. reflexivity. Qed.

(** X14: after a death, starting again without a restart and without a new
    direction only leads back to the same game over: the first tick finds
    the same collision and leaves the state exactly as the death left it. *)
Theorem start_after_death (s : State) (head : Cell) (tl : list Cell)
  (rng rng1 : Samples)
  (Hs : snake s = head :: tl)
  (Hhit : some_same (snake s) (nextCell (nextDir s) head) = true) :
  exists s1,
    tick s rng = Ret (s1, rng) /\
    dead s1 = true /\
    ticking (startGame s1) = true /\
    run [ClickStart; Tick] s1 rng1 = Ret (s1, rng1) /\
    run [Key "s"; Tick] s1 rng1 = Ret (s1, rng1).
Proof.
  exists (setSnake (snake s) (die (score s) (setDir (nextDir s) s))).
  split; [exact (tick_death s head tl rng Hs Hhit)|].
  assert (Hagain :
    tick (startGame (setSnake (snake s) (die (score s) (setDir (nextDir s) s)))) rng1
    = Ret (setSnake (snake s) (die (score s) (setDir (nextDir s) s)), rng1)).
  { destruct s as [sn d nd f sc b r p de st]. simpl in Hs, Hhit. subst sn.
    unfold tick, die. cbn [snake nextDir best score setDir setDead setRunning
                            setPaused startGame setSnake setBest].
    destruct (sc >? b) eqn:E;
      cbn [snake nextDir best score setDir setDead setRunning setPaused
           startGame setSnake setBest];
      rewrite Hhit.
    - assert (E' : (sc >? sc) = false) by (rewrite Z.gtb_ltb; apply Z.ltb_irrefl).
      rewrite E'. reflexivity.
    - rewrite E. reflexivity. }
  destruct (die_flags (score s) (setDir (nextDir s) s)) as (Hd & Hr & Hp).
  remember (setSnake (snake s) (die (score s) (setDir (nextDir s) s))) as s1 eqn:Es1.
  assert (Hd1 : dead s1 = true) by (subst s1; exact Hd).
  assert (Hstart : step ClickStart s1 rng1 = Ret (startGame s1, rng1))
    by (unfold step; rewrite Hd1, andb_false_r; reflexivity).
  assert (Htick : step Tick (startGame s1) rng1 = tick (startGame s1) rng1)
    by (apply step_Tick_live; reflexivity).
  split; [exact Hd1|]. split; [reflexivity|].
  split.
  - rewrite run_cons, Hstart. cbv iota beta.
    rewrite run_cons, Htick, Hagain. reflexivity.
  - rewrite run_cons. change (step (Key "s") s1 rng1) with (Ret (startGame s1, rng1)).
    cbv iota beta. rewrite run_cons, Htick, Hagain. reflexivity.
Qed.

(** The snake that dies turning left across the edge. *)
Lemma start_after_death_wrapped :
  exists s1,
    tick wrapped [] = Ret (s1, []) /\
    dead s1 = true /\
    ticking (startGame s1) = true /\
    run [ClickStart; Tick] s1 [] = Ret (s1, []) /\
    run [Key "s"; Tick] s1 [] = Ret (s1, []).
Proof.
  apply (start_after_death wrapped (mkCell 0 9) [mkCell 17 9; mkCell 16 9] [] []);
    reflexivity.
Defined.

(** ** Swipes and direction requests *)

(** X15: a touch end without a touch start changes nothing; any touch end
    forgets the start point and changes nothing else but [nextDir]; a
    gesture shorter than 14 on both axes requests no direction; and a
    gesture as long on one axis as on the other is read as vertical. *)
Theorem onTouchEnd_gestures (s : State) (cx cy : Z) :
  (startPt s = None -> onTouchEnd cx cy s = s) /\
  startPt (onTouchEnd cx cy s) = None /\
  (snake (onTouchEnd cx cy s) = snake s /\ dir (onTouchEnd cx cy s) = dir s /\
   food (onTouchEnd cx cy s) = food s /\ score (onTouchEnd cx cy s) = score s /\
   best (onTouchEnd cx cy s) = best s /\
   running (onTouchEnd cx cy s) = running s /\
   paused (onTouchEnd cx cy s) = paused s /\ dead (onTouchEnd cx cy s) = dead s) /\
  (forall px py, startPt s = Some (px, py) ->
     Z.abs (cx - px) < 14 -> Z.abs (cy - py) < 14 ->
     onTouchEnd cx cy s = setStartPt None s) /\
  (forall px py, startPt s = Some (px, py) ->
     Z.abs (cx - px) = Z.abs (cy - py) -> 14 <= Z.abs (cy - py) ->
     onTouchEnd cx cy s
     = requestDir (if cy - py >? 0 then Down else Up) (setStartPt None s)).
Proof.
  repeat apply conj.
  - intros H. unfold onTouchEnd. rewrite H. reflexivity.
  - unfold onTouchEnd. destruct (startPt s) as [[px py]|] eqn:E; [|exact E].
    cbn zeta. destruct (_ <? 14); [reflexivity|].
    destruct (_ >? _); reflexivity.
  - unfold onTouchEnd. destruct (startPt s) as [[px py]|]; [|reflexivity].
    cbn zeta. destruct (_ <? 14); [reflexivity|]. destruct (_ >? _); reflexivity.
  - unfold onTouchEnd. destruct (startPt s) as [[px py]|]; [|reflexivity].
    cbn zeta. destruct (_ <? 14); [reflexivity|]. destruct (_ >? _); reflexivity.
  - unfold onTouchEnd. destruct (startPt s) as [[px py]|]; [|reflexivity].
    cbn zeta. destruct (_ <? 14); [reflexivity|]. destruct (_ >? _); reflexivity.
  - unfold onTouchEnd. destruct (startPt s) as [[px py]|]; [|reflexivity].
    cbn zeta. destruct (_ <? 14); [reflexivity|]. destruct (_ >? _); reflexivity.
  - unfold onTouchEnd. destruct (startPt s) as [[px py]|]; [|reflexivity].
    cbn zeta. destruct (_ <? 14); [reflexivity|]. destruct (_ >? _); reflexivity.
  - unfold onTouchEnd. destruct (startPt s) as [[px py]|]; [|reflexivity].
    cbn zeta. destruct (_ <? 14); [reflexivity|]. destruct (_ >? _); reflexivity.
  - unfold onTouchEnd. destruct (startPt s) as [[px py]|]; [|reflexivity].
    cbn zeta. destruct (_ <? 14); [reflexivity|]. destruct (_ >? _); reflexivity.
  - unfold onTouchEnd. destruct (startPt s) as [[px py]|]; [|reflexivity].
    cbn zeta. destruct (_ <? 14); [reflexivity|]. destruct (_ >? _); reflexivity.
  - intros px py Hpt Hx Hy. rewrite (onTouchEnd_swipe s px py cx cy Hpt).
    unfold swipeDir.
    assert (E : (Z.max (Z.abs (cx - px)) (Z.abs (cy - py)) <? 14) = true)
      by (apply Z.ltb_lt; lia).
    rewrite E. reflexivity.
  - intros px py Hpt Heq Hlong. rewrite (onTouchEnd_swipe s px py cx cy Hpt).
    unfold swipeDir.
    assert (E : (Z.max (Z.abs (cx - px)) (Z.abs (cy - py)) <? 14) = false)
      by (apply Z.ltb_ge; lia).
    assert (E' : (Z.abs (cx - px) >? Z.abs (cy - py)) = false)
      by (rewrite Z.gtb_ltb; apply Z.ltb_ge; lia).
    rewrite E, E'. reflexivity.
Qed.

(** A tap that moved by (5,-3), and a diagonal swipe by (20,20). *)
Lemma onTouchEnd_gestures_tap_and_diagonal :
  onTouchEnd 45 17 (onTouchStart 40 20 turningUp)
    = setStartPt None (onTouchStart 40 20 turningUp) /\
  onTouchEnd 60 40 (onTouchStart 40 20 turningUp)
    = requestDir Down (setStartPt None (onTouchStart 40 20 turningUp)).
Proof.
  split.
  - apply (proj1 (proj2 (proj2 (proj2
             (onTouchEnd_gestures (onTouchStart 40 20 turningUp) 45 17)))) 40 20);
      [reflexivity | simpl; lia | simpl; lia].
  - apply (proj2 (proj2 (proj2 (proj2
             (onTouchEnd_gestures (onTouchStart 40 20 turningUp) 60 40)))) 40 20);
      [reflexivity | reflexivity | simpl; lia].
Defined.

(** X16: a direction request changes [nextDir] only; the new [nextDir] is
    the request or the old [nextDir], and never the opposite of the old
    one; and repeating the request changes nothing more. *)
Theorem requestDir_effect (r : Dir) (s : State) :
  requestDir r s = setNextDir (nextDir (requestDir r s)) s /\
  (nextDir (requestDir r s) = r \/ nextDir (requestDir r s) = nextDir s) /\
  isOpposite (nextDir s) (nextDir (requestDir r s)) = false /\
  requestDir r (requestDir r s) = requestDir r s.
Proof.
  unfold requestDir, turn. cbn [nextDir setNextDir].
  destruct (isOpposite (nextDir s) r) eqn:E; cbn [nextDir setNextDir].
  - repeat apply conj; auto.
    + destruct (nextDir s); reflexivity.
    + rewrite E. destruct s; reflexivity.
  - repeat apply conj; auto.
    assert (Hrr : isOpposite r r = false) by (destruct r; reflexivity).
    rewrite Hrr. reflexivity.
Qed.

(** ** The food sampler, continued *)

Lemma spawnFood_skips (s : list Cell) (rejected : list Cell) (f : Cell)
      (rest : Samples) :
  Forall (fun g => In g s) rejected -> ~ In f s ->
  spawnFood s (rejected ++ f :: rest) = Some (f, rest).
Proof.
  intros Hrej Hf. induction Hrej as [|g rej Hg _ IH]; simpl.
  - apply some_same_notIn in Hf. rewrite Hf. reflexivity.
  - apply some_same_In in Hg. rewrite Hg. simpl. exact IH.
Qed.

Lemma spawnFood_none (s : list Cell) (rng : Samples) :
  spawnFood s rng = None <-> Forall (fun g => In g s) rng.
Proof.
  induction rng as [|g rest IH]; simpl.
  - split; [constructor | reflexivity].
  - destruct (some_same s g) eqn:Hg; simpl.
    + rewrite IH. apply some_same_In in Hg. split.
      * intros H. constructor; assumption.
      * intros H. inversion H; assumption.
    + split; [discriminate|]. intros H. inversion H as [|? ? Hin _]; subst.
      apply some_same_notIn in Hg. contradiction.
Qed.

(** X17: [spawnFood] returns the first sample that is off the snake, having
    used up exactly the samples before it, all of them on the snake; it is
    still looping after a supply exactly when every sample of the supply
    is on the snake. *)
Theorem spawnFood_first_free (s : list Cell) (rng : Samples) :
  (forall f rng',
     spawnFood s rng = Some (f, rng') <->
     exists rejected,
       rng = rejected ++ f :: rng' /\
       Forall (fun g => In g s) rejected /\ ~ In f s) /\
  (spawnFood s rng = None <-> Forall (fun g => In g s) rng).
Proof.
  split; [|apply spawnFood_none].
  intros f rng'. split.
  - intros H. destruct (spawnFood_drawn _ _ _ _ H) as (rej & -> & Hrej).
    exists rej. split; [reflexivity|]. split.
    + apply Forall_impl with (2 := Hrej). intros g Hg. apply some_same_In. exact Hg.
    + apply some_same_notIn. exact (spawnFood_off _ _ _ _ H).
  - intros (rej & -> & Hrej & Hf). apply spawnFood_skips; assumption.
Qed.

(** Two samples on the start snake, then (3,3). *)
Lemma spawnFood_first_free_third_sample :
  exists rejected,
    [mkCell 9 9; mkCell 8 9; mkCell 3 3; mkCell 1 1]
      = rejected ++ mkCell 3 3 :: [mkCell 1 1] /\
    Forall (fun g => In g startSnake) rejected /\ ~ In (mkCell 3 3) startSnake.
Proof.
  apply (proj1 (proj1 (spawnFood_first_free startSnake
                         [mkCell 9 9; mkCell 8 9; mkCell 3 3; mkCell 1 1])
                      (mkCell 3 3) [mkCell 1 1])).
  reflexivity.
Defined.

(** X18: when the snake eats the food on the last free cell of the grid,
    the respawn finds no free cell: whatever cells of the grid are drawn,
    the loop in [spawnFood] is still running and the tick has not
    returned. *)
Theorem last_bite_never_returns (s : State) (head : Cell) (tl : list Cell)
  (rng : Samples)
  (Hs : snake s = head :: tl)
  (Hfree : some_same (snake s) (nextCell (nextDir s) head) = false)
  (Hfood : same (nextCell (nextDir s) head) (food s) = true)
  (Hfull : forall c, inGrid c -> In c (nextCell (nextDir s) head :: snake s))
  (Hrng : Forall inGrid rng) :
  spawnFood (nextCell (nextDir s) head :: snake s) rng = None /\
  tick s rng = Spin.
Proof.
  assert (Hnone : spawnFood (nextCell (nextDir s) head :: snake s) rng = None).
  { apply spawnFood_none. apply Forall_impl with (2 := Hrng). exact Hfull. }
  split; [exact Hnone|].
  rewrite (tick_eat s head tl rng Hs Hfree Hfood), Hnone. reflexivity.
Qed.

(** The body on every cell but (0,0), moving up from (0,1) onto the food. *)
Lemma last_bite_never_returns_full_grid :
  spawnFood (nextCell (nextDir lastBite) (mkCell 0 1) :: snake lastBite)
            [mkCell 0 0; mkCell 5 5; mkCell 17 17] = None /\
  tick lastBite [mkCell 0 0; mkCell 5 5; mkCell 17 17] = Spin.
Proof.
  apply (last_bite_never_returns lastBite (mkCell 0 1)
           (tl (tl allCells)) [mkCell 0 0; mkCell 5 5; mkCell 17 17]).
  - reflexivity.
  - vm_compute. reflexivity.
  - reflexivity.
  - intros c Hc. apply allCells_spec in Hc. exact Hc.
  - repeat constructor; unfold GRID; simpl; lia.
Defined.

(** ** Overlays *)

(** X19: the draw effect paints at most one overlay; it paints none exactly
    while the game is ticking, and on a game over it paints the game-over
    overlay whatever the other flags are. *)
Theorem overlays_exclusive (s : State) :
  (length (overlays s) <= 1)%nat /\
  (overlays s = [] <-> ticking s = true) /\
  (dead s = true ->
   overlays s = [("game over"%string, "press restart"%string)]) /\
  (dead s = false -> running s = true -> paused s = true ->
   overlays s = [("paused"%string, "space to resume"%string)]) /\
  (dead s = false -> running s = false ->
   overlays s = [("snake"%string, "press start"%string)]).
Proof.
  unfold overlays, ticking.
  destruct (running s), (paused s), (dead s); simpl;
    repeat apply conj; try (intros; reflexivity); try lia;
    try (intros; discriminate);
    split; intros; (reflexivity || discriminate).
Qed.

(** The game over after the reversal, and the running game. *)
Lemma overlays_exclusive_game_over :
  overlays (die 0 turningUp) = [("game over"%string, "press restart"%string)] /\
  overlays turningUp = [].
Proof.
  split.
  - apply (proj1 (proj2 (proj2 (overlays_exclusive (die 0 turningUp))))).
    reflexivity.
  - apply (proj2 (proj1 (proj2 (overlays_exclusive turningUp)))). reflexivity.
Defined.

(** ** The interval of the game loop *)

Lemma stopLoop_clears (t : Timers) :
  timersOk t ->
  timersOk (stopLoop t) /\ loopRef (stopLoop t) = None /\
  scheduled (stopLoop t) = [] /\ fresh (stopLoop t) = fresh t.
Proof.
  unfold timersOk, stopLoop. intros [Hf Hl].
  destruct (loopRef t) as [id|] eqn:E.
  - destruct Hl as (Hid & ms & Hs).
    assert (E0 : (id =? 0) = false) by (apply Z.eqb_neq; lia).
    rewrite E0. cbn [loopRef scheduled fresh clearInterval]. rewrite Hs.
    cbn [filter fst]. rewrite Z.eqb_refl. cbn [negb].
    repeat split; assumption.
  - rewrite E. repeat split; assumption.
Qed.

(** X20: starting from a table that holds only the interval [loopRef]
    names, [stopLoop] leaves no interval scheduled and is idempotent, and
    the game-loop effect leaves exactly one interval, a new one with the
    period of the current score, while the game is ticking, and none
    otherwise. *)
Theorem game_loop_single_interval (s : State) (t : Timers) (Hok : timersOk t) :
  (timersOk (stopLoop t) /\ loopRef (stopLoop t) = None /\
   scheduled (stopLoop t) = [] /\ stopLoop (stopLoop t) = stopLoop t) /\
  timersOk (gameLoop s t) /\
  (ticking s = true ->
   loopRef (gameLoop s t) = Some (fresh t) /\
   scheduled (gameLoop s t) = [(fresh t, period (score s))]) /\
  (ticking s = false ->
   loopRef (gameLoop s t) = None /\ scheduled (gameLoop s t) = []).
Proof.
  destruct (stopLoop_clears t Hok) as (Hok' & Hl & Hs & Hf).
  assert (Hidle : (negb (running s) || paused s || dead s) = negb (ticking s))
    by (unfold ticking; destruct (running s), (paused s), (dead s); reflexivity).
  split; [|split; [|split]].
  - split; [exact Hok'|]. split; [exact Hl|]. split; [exact Hs|].
    revert Hl. generalize (stopLoop t). intros t' Hl.
    unfold stopLoop. rewrite Hl. reflexivity.
  - unfold gameLoop. rewrite Hidle. destruct (ticking s); cbn [negb].
    + unfold setInterval. cbn [loopRef scheduled fresh]. rewrite Hs, Hf.
      destruct Hok as [Hpos _]. unfold timersOk. cbn [loopRef scheduled fresh].
      split; [lia|]. split; [lia|]. eexists. reflexivity.
    + exact Hok'.
  - intros Ht. unfold gameLoop. rewrite Hidle, Ht. cbn [negb].
    unfold setInterval. cbn [loopRef scheduled fresh]. rewrite Hs, Hf.
    split; reflexivity.
  - intros Ht. unfold gameLoop. rewrite Hidle, Ht. cbn [negb].
    split; assumption.
Qed.

(** Speeding up at score 5 while interval 4 runs, then pausing. *)
Lemma game_loop_single_interval_rescheduled :
  scheduled (gameLoop (setScore 5 turningUp) (mkTimers (Some 4) [(4, 111)] 5))
    = [(5, 90)] /\
  scheduled (gameLoop (togglePause turningUp) (mkTimers (Some 4) [(4, 111)] 5))
    = [].
Proof.
  assert (Hok : timersOk (mkTimers (Some 4) [(4, 111)] 5)).
  { unfold timersOk. simpl. split; [lia|]. split; [lia|]. exists 111. reflexivity. }
  split.
  - apply (proj1 (proj2 (proj2 (game_loop_single_interval
             (setScore 5 turningUp) (mkTimers (Some 4) [(4, 111)] 5) Hok)))).
    reflexivity.
  - apply (proj2 (proj2 (proj2 (game_loop_single_interval
             (togglePause turningUp) (mkTimers (Some 4) [(4, 111)] 5) Hok)))).
    reflexivity.
Defined.

(** ** Food on the grid *)

Lemma spawnFood_from_supply (s : list Cell) (rng : Samples) (f : Cell)
      (rng' : Samples) :
  spawnFood s rng = Some (f, rng') -> Forall inGrid rng ->
  inGrid f /\ Forall inGrid rng'.
Proof.
  intros H Hall. destruct (spawnFood_drawn _ _ _ _ H) as (rej & -> & _).
  apply Forall_app in Hall. destruct Hall as [_ Hall].
  inversion Hall; subst. split; assumption.
Qed.

Lemma onKey_food (key : string) (s : State) (rng : Samples)
      (s' : State) (rng' : Samples) :
  onKey key s rng = Ret (s', rng') ->
  (food s' = food s /\ rng' = rng) \/
  spawnFood startSnake rng = Some (food s', rng').
Proof.
  unfold onKey.
  set (s5 := if (key =? " ")%string then togglePause _ else _).
  assert (H5 : food s5 = food s).
  { subst s5. unfold togglePause.
    repeat match goal with
           | |- context [if ?b then _ else _] => destruct b
           end; reflexivity. }
  clearbody s5.
  destruct (lower_is key "r" "R").
  - destruct (restart s5 rng) as [[s6 rng6]| |] eqn:Hr; try discriminate.
    intros H; inversion H; subst.
    destruct (restart_fields _ _ _ _ Hr) as (f & Hsp & ->).
    right. destruct (lower_is key "s" "S"); exact Hsp.
  - intros H; inversion H; subst. left.
    destruct (lower_is key "s" "S"); auto.
Qed.

Lemma onTouchEnd_food (cx cy : Z) (s : State) :
  food (onTouchEnd cx cy s) = food s.
Proof.
  unfold onTouchEnd. destruct (startPt s) as [[px py]|]; [|reflexivity].
  cbn zeta. destruct (_ <? 14); [reflexivity|]. destruct (_ >? _); reflexivity.
Qed.

Lemma step_food_inGrid (c : Cmd) (s : State) (rng : Samples)
      (s' : State) (rng' : Samples) :
  Forall inGrid rng -> inGrid (food s) -> step c s rng = Ret (s', rng') ->
  inGrid (food s') /\ Forall inGrid rng'.
Proof.
  intros Hrng Hfood. destruct c; simpl.
  - intros H. destruct (onKey_food _ _ _ _ _ H) as [[-> ->] | Hsp]; [auto|].
    exact (spawnFood_from_supply _ _ _ _ Hsp Hrng).
  - intros H; inversion H; subst. auto.
  - intros H; inversion H; subst. rewrite onTouchEnd_food. auto.
  - intros H; inversion H; subst. destruct (_ && _); auto.
  - intros H; inversion H; subst. unfold togglePause.
    destruct (_ || _); auto.
  - intros H. destruct (restart_fields _ _ _ _ H) as (f & Hsp & ->).
    exact (spawnFood_from_supply _ _ _ _ Hsp Hrng).
  - destruct (_ || _); [intros H; inversion H; subst; auto|].
    intros H. destruct (tick_inv _ _ _ _ H) as (head & tl & Hs &
      [(Hhit & -> & ->) | [(Hhit & Hf & f & Hsp & ->) | (Hhit & Hf & -> & ->)]]).
    + destruct (die_rest (score s) (setDir (nextDir s) s)) as (_ & Hfd & _).
      cbn [food setSnake]. rewrite Hfd. auto.
    + exact (spawnFood_from_supply _ _ _ _ Hsp Hrng).
    + auto.
Qed.

(** X21: when every sample drawn is a cell of the grid, as
    [floor(random * 18)] on both axes is, the food is on the grid after
    any run of commands, and the samples left over are the unused end of
    the supply. *)
Theorem food_stays_on_grid (cs : list Cmd) (s : State) (rng : Samples)
  (s' : State) (rng' : Samples)
  (Hrng : Forall inGrid rng) (Hfood : inGrid (food s))
  (Hrun : run cs s rng = Ret (s', rng')) :
  inGrid (food s') /\ Forall inGrid rng'.
Proof.
  revert s rng Hrng Hfood Hrun.
  induction cs as [|c cs IH]; intros s rng Hrng Hfood; simpl.
  - intros H; inversion H; subst. auto.
  - destruct (step c s rng) as [[s1 rng1]| |] eqn:Hstep; try discriminate.
    destruct (step_food_inGrid _ _ _ _ _ Hrng Hfood Hstep) as [Hf1 Hr1].
    apply IH; assumption.
Qed.

(** Start, eat the cell ahead, restart. *)
Lemma food_stays_on_grid_eat_restart :
  exists s' rng',
    run [Tick; Key "r"] aboutToEat [mkCell 9 9; mkCell 2 3; mkCell 8 9; mkCell 5 5]
      = Ret (s', rng') /\
    inGrid (food s') /\ Forall inGrid rng'.
Proof.
  eexists. eexists. split; [reflexivity|].
  apply (food_stays_on_grid [Tick; Key "r"] aboutToEat
           [mkCell 9 9; mkCell 2 3; mkCell 8 9; mkCell 5 5] _ _).
  - repeat constructor; unfold GRID; simpl; lia.
  - unfold inGrid, GRID. simpl. lia.
  - reflexivity.
Defined.

(** ** A free cell is found while one exists *)

Lemma Cell_eq_dec (a b : Cell) : {a = b} + {a <> b}.
Proof. decide equality; apply Z.eq_dec. Defined.

Lemma NoDup_allCells : NoDup allCells.
Proof.
  assert (E : nodup Cell_eq_dec allCells = allCells) by (vm_compute; reflexivity).
  rewrite <- E. apply NoDup_nodup.
Qed.

(** X22: while the snake has fewer than 324 cells, [spawnFood] returns on
    any supply in which every cell of the grid occurs, with a cell off the
    snake. *)
Theorem spawnFood_finds_free_cell (s : list Cell) (rng : Samples)
  (Hlen : (length s < 324)%nat) (Hfair : incl allCells rng) :
  exists f rng', spawnFood s rng = Some (f, rng') /\ ~ In f s.
Proof.
  destruct (spawnFood s rng) as [[f rng']|] eqn:E.
  - exists f, rng'. split; [reflexivity|].
    apply some_same_notIn. exact (spawnFood_off _ _ _ _ E).
  - exfalso. apply spawnFood_none in E. rewrite Forall_forall in E.
    assert (Hincl : incl allCells s) by (intros c Hc; apply E, Hfair, Hc).
    pose proof (NoDup_incl_length NoDup_allCells Hincl) as Hle.
    change (length allCells) with 324%nat in Hle. lia.
Qed.

(** The start snake and the supply that enumerates the grid. *)
Lemma spawnFood_finds_free_cell_start :
  exists f rng', spawnFood startSnake allCells = Some (f, rng') /\
                 ~ In f startSnake.
Proof.
  apply (spawnFood_finds_free_cell startSnake allCells).
  - simpl. lia.
  - intros c Hc. exact Hc.
Defined.

(** ** Growth *)







